(** * pxg-go: the canvas store of [main.go]

    A shallow embedding of the shared pixel canvas served by [main.go]:
    the package-level [board] and [placementData], the handlers of
    [GET /board], [GET /pixel] and [POST /pixel], the start-up loaders
    [loadCanvas] and [loadPlacementData], and the periodic savers
    [saveCanvas] and [savePlacementData].

    Go's [int] is taken at 64 bits, two's complement; every arithmetic
    operation of the source is written with its wrap-around.  A [byte] is
    an integer in [0, 256).  Handlers are state-passing functions over the
    two globals; a run-time panic and a [log.Fatal] exit are results of
    their own. *)

From Stdlib Require Import ZArith Lia Ascii String.
From stdpp Require Import base tactics option list.

Local Open Scope Z_scope.

(** ** Go's machine integers *)

Module GoInt.

Definition int_min : Z := - 2 ^ 63.
Definition int_max : Z := 2 ^ 63 - 1.

(** Reduction of a mathematical integer to the [int] it is stored as. *)
Definition wrap (z : Z) : Z := (z + 2 ^ 63) mod 2 ^ 64 - 2 ^ 63.

(** [a * b] and [a + b] on [int]. *)
Definition mul (a b : Z) : Z := wrap (a * b).
Definition add (a b : Z) : Z := wrap (a + b).

(** The conversion [byte(v)] of an [int]. *)
Definition to_byte (v : Z) : Z := v mod 256.

End GoInt.

(** ** Go slices, indexed by [int] *)

Module Slice.

(** The allocator's limit [maxAlloc] of the Go runtime on 64-bit Linux:
    2^48 bytes. *)
Definition max_alloc : Z := 2 ^ 48.

(** [make([]byte, n)]: the run-time panic "makeslice: len out of range"
    for a negative length and for one above the allocator's limit.  The
    machine is taken to have the memory for a length within the limit
    (the runtime would end the process with "out of memory" otherwise). *)
Definition make (n : Z) : option (list Z) :=
  if (n <? 0) || (n >? max_alloc) then None
  else Some (replicate (Z.to_nat n) 0).

(** [len(s)]. *)
Definition len {A} (s : list A) : Z := Z.of_nat (length s).

(** [s[i]]: [None] stands for the panic "index out of range". *)
Definition get {A} (s : list A) (i : Z) : option A :=
  if (i <? 0) || (len s <=? i) then None else s !! Z.to_nat i.

(** [s[i] = v], with the same panic. *)
Definition set {A} (s : list A) (i : Z) (v : A) : option (list A) :=
  if (i <? 0) || (len s <=? i) then None else Some (<[Z.to_nat i := v]> s).

(** [slices.IndexFunc(s, f)]: the first index whose element satisfies
    [f], or [-1]. *)
Fixpoint IndexFunc_from {A} (i : Z) (s : list A) (f : A -> bool) : Z :=
  match s with
  | [] => -1
  | e :: s' => if f e then i else IndexFunc_from (i + 1) s' f
  end.

Definition IndexFunc {A} (s : list A) (f : A -> bool) : Z :=
  IndexFunc_from 0 s f.

End Slice.

(** ** The data of [main.go] *)

(** The configuration [main] reads from the environment; the handlers
    use [width] and [height] of it, the loader the default colour. *)
Record Config := {
  Width : Z;
  Height : Z;
  DefaultColorIndex : Z;
  Palette : list string
}.

Module ClientPixel.
Record t := mk { X : Z; Y : Z; Color : Z }.
End ClientPixel.

Module ServerPixel.
Record t := mk { X : Z; Y : Z; Color : Z; Time : Z }.
End ServerPixel.

(** The two package-level variables the handlers share. *)
Record Globals := {
  board : list Z;
  placementData : list ServerPixel.t
}.

(** What a handler leaves behind: a response, or the panic of an index
    out of range ([status_set] is a status already chosen with
    [c.Status] when the panic strikes). *)
Inductive reply :=
| StatusOnly (code : Z)
| Message (code : Z) (message : string)
| Pixel (code : Z) (p : ServerPixel.t)
| Bytes (code : Z) (data : list Z)
| IndexPanic (status_set : option Z) (index length : Z).

(** ** The handlers *)

(** [badRequest(c, message)]. *)
Definition badRequest (message : string) : reply := Message 400 message.

(** [GET /board]. *)
Definition getBoard (g : Globals) : reply * Globals :=
  (Bytes 200 (board g), g).

(** [GET /pixel], from the parsed coordinates on (lines 103-109): the
    status 404 is set and the handler goes on to index the log. *)
Definition getPixel (x y : Z) (g : Globals) : reply * Globals :=
  let pixelIndex :=
    Slice.IndexFunc (placementData g)
      (fun pixel => (ServerPixel.X pixel =? x) && (ServerPixel.Y pixel =? y)) in
  let status_set := if pixelIndex =? -1 then Some 404 else None in
  match Slice.get (placementData g) pixelIndex with
  | Some pixel => (Pixel 200 pixel, g)
  | None => (IndexPanic status_set pixelIndex (Slice.len (placementData g)), g)
  end.

(** What [c.GetQuery] and [strconv.Atoi] make of one parameter of the
    query: it is absent ([GetQuery] gives the empty string and [false],
    [Atoi] then fails with value 0), it is present and [Atoi] fails on it
    (with the value it returns besides the error: 0, or the nearest [int]
    when the number is out of range), or it is a number. *)
Inductive query_param :=
| Absent
| NotANumber (value : Z)
| Number (value : Z).

Definition query_exists (q : query_param) : bool :=
  match q with
  | Absent => false
  | _ => true
  end.

Definition Atoi_value (q : query_param) : Z :=
  match q with
  | Absent => 0
  | NotANumber value => value
  | Number value => value
  end.

Definition Atoi_failed (q : query_param) : bool :=
  match q with
  | Number _ => false
  | _ => true
  end.

(** [GET /pixel], whole (lines 86-110): the calls the handler makes on
    [c], in order.  [exists] is overwritten by the second [GetQuery], no
    branch returns, and the last call is that of the lookup, [getPixel],
    at the values [Atoi] returned. *)
Definition getPixelHandler (xQuery yQuery : query_param) (g : Globals)
    : list reply * Globals :=
  let exists_ := query_exists yQuery in
  let missing := if negb exists_ then [StatusOnly 400] else [] in
  let x := Atoi_value xQuery in
  let bad_x :=
    if Atoi_failed xQuery then [badRequest "x is not a number"] else [] in
  let y := Atoi_value yQuery in
  let bad_y :=
    if Atoi_failed yQuery then [badRequest "y is not a number"] else [] in
  let '(r, g') := getPixel x y g in
  (missing ++ bad_x ++ bad_y ++ [r], g').

(** [POST /pixel]: [body] is what [c.BindJSON] made of the request
    ([None] when it failed), [now] is [time.Now().UnixMilli()]. *)
Definition postPixel (width height : Z) (body : option ClientPixel.t) (now : Z)
    (g : Globals) : reply * Globals :=
  match body with
  | None => (badRequest "malformed body", g)
  | Some clientPlace =>
    let x := ClientPixel.X clientPlace in
    let y := ClientPixel.Y clientPlace in
    let color := ClientPixel.Color clientPlace in
    if (color <? 0) || (color >? 255) then
      (badRequest "color out of range", g)
    else if (x <? 0) || (x >=? width) then
      (badRequest "x-coordinate out of range", g)
    else if (y <? 0) || (y >=? height) then
      (badRequest "y-coordinate out of range", g)
    else
      let index := GoInt.add (GoInt.mul y width) x in
      match Slice.set (board g) index (GoInt.to_byte color) with
      | None => (IndexPanic None index (Slice.len (board g)), g)
      | Some board' =>
        (StatusOnly 200,
         {| board := board';
            placementData :=
              placementData g ++ [ServerPixel.mk x y color now] |})
      end
  end.

(** The cell read of the source, [board[y*width+x]], as the [GET /image]
    loop performs it (line 148). *)
Definition cell (width : Z) (g : Globals) (x y : Z) : option Z :=
  Slice.get (board g) (GoInt.add (GoInt.mul y width) x).

(** Modelled from the spec: [ReadCell(x, y)].  [main.go] has no handler
    that reads one cell; the spec gives it the bounds test of
    [POST /pixel] in front of the cell read. *)
Definition ReadCell (width height : Z) (x y : Z) (g : Globals)
    : reply * Globals :=
  if (x <? 0) || (x >=? width) then
    (badRequest "x-coordinate out of range", g)
  else if (y <? 0) || (y >=? height) then
    (badRequest "y-coordinate out of range", g)
  else
    match cell width g x y with
    | Some c => (Bytes 200 [c], g)
    | None =>
      (IndexPanic None (GoInt.add (GoInt.mul y width) x) (Slice.len (board g)), g)
    end.

(** The spec's names for the two validation failures, read off the
    message of a 400 response. *)
Inductive validation_error := OutOfBounds | InvalidColor.

Definition validation_error_of (r : reply) : option validation_error :=
  match r with
  | Message 400 "color out of range" => Some InvalidColor
  | Message 400 "x-coordinate out of range" => Some OutOfBounds
  | Message 400 "y-coordinate out of range" => Some OutOfBounds
  | _ => None
  end.

(** ** Persistence *)

(** What the operating system answers for a path: [os.Stat] fails with
    [ErrNotExist] or with another error, or it reports a size and
    [os.Open], then [Read], fail or deliver.  [Regular content] is a file
    whose size is the length of [content] and from which [Read] delivers
    the bytes of [content]. *)
Inductive file_state :=
| NotExist
| StatError (e : string)
| OpenError (size : Z) (e : string)
| ReadError (size : Z) (e : string)
| Regular (content : list Z).

(** How a call that may end the process ends: it returns, it panics, or
    [log.Fatal...] prints and exits with status 1. *)
Inductive fatal :=
| IOFailure (e : string)
| SizeMismatch (size expected : Z)
| EndOfFile
| JsonError.

Inductive startup (A : Type) :=
| Loaded (a : A)
| MakePanic
| Fatal (why : fatal).
Arguments Loaded {A} a.
Arguments MakePanic {A}.
Arguments Fatal {A} why.

(** [for i := range b { b[i] = v }]. *)
Definition fill (b : list Z) (v : Z) : list Z :=
  foldl (fun acc i => <[i := v]> acc) b (seq 0 (length b)).

(** The most one [Read] of an [os.File] transfers: [maxRW] of package
    [internal/poll], 2^30 bytes. *)
Definition max_rw : Z := 2 ^ 30.

(** The one call [file.Read(buf)] of the loaders, on a regular file just
    opened: it copies the first bytes of the file to the front of [buf],
    as many as the buffer, the file and [max_rw] allow, and leaves the
    rest of [buf] as it was; the count it returns is dropped by the
    callers.  [None] is [io.EOF], returned when nothing is left for a
    buffer that is not empty. *)
Definition read_into (content buf : list Z) : option (list Z) :=
  match buf, content with
  | _ :: _, [] => None
  | _, _ =>
    let n := Z.to_nat (Z.min (Z.min (Slice.len buf) (Slice.len content)) max_rw) in
    Some (take n content ++ drop n buf)
  end.

(** [loadCanvas(path, expectedSize, defaultColor)]; the result is the
    value left in [board]. *)
Definition loadCanvas (path : file_state) (expectedSize defaultColor : Z)
    : startup (list Z) :=
  match Slice.make expectedSize with
  | None => MakePanic
  | Some board0 =>
    match path with
    | NotExist => Loaded (fill board0 (GoInt.to_byte defaultColor))
    | StatError e => Fatal (IOFailure e)
    | OpenError size e =>
      if negb (size =? expectedSize) then Fatal (SizeMismatch size expectedSize)
      else Fatal (IOFailure e)
    | ReadError size e =>
      if negb (size =? expectedSize) then Fatal (SizeMismatch size expectedSize)
      else Fatal (IOFailure e)
    | Regular content =>
      if negb (Slice.len content =? expectedSize) then
        Fatal (SizeMismatch (Slice.len content) expectedSize)
      else
        match read_into content board0 with
        | None => Fatal EndOfFile
        | Some board1 => Loaded board1
        end
    end
  end.

Section Json.

(** [encoding/json] is a library of its own; the loaders and savers only
    pass bytes through it. *)
Variable Unmarshal : list Z -> option (list ServerPixel.t).
Variable Marshal : list ServerPixel.t -> option (list Z).

(** [loadPlacementData(path)]; the result is the value left in
    [placementData]. *)
Definition loadPlacementData (path : file_state)
    : startup (list ServerPixel.t) :=
  match path with
  | NotExist => Loaded []
  | StatError e => Fatal (IOFailure e)
  | OpenError _ e => Fatal (IOFailure e)
  | ReadError _ e => Fatal (IOFailure e)
  | Regular content =>
    match Slice.make (Slice.len content) with
    | None => MakePanic
    | Some fileBytes0 =>
      match read_into content fileBytes0 with
      | None => Fatal EndOfFile
      | Some fileBytes =>
        match Unmarshal fileBytes with
        | None => Fatal JsonError
        | Some pixels => Loaded pixels
        end
      end
    end
  end.

(** The process between two requests: running on its globals with the
    two files of [storage/] as they are on disk, or gone. *)
Record Disk := {
  board_dat : file_state;
  data_json : file_state
}.

Inductive process :=
| Running (g : Globals) (d : Disk)
| Exited (code : Z) (logged : fatal).

(** [os.WriteFile(path, data, 0644)]: the environment decides with
    [failure] whether the write goes through. *)
Definition WriteFile (failure : option string) (data : list Z)
    : file_state + string :=
  match failure with
  | None => inl (Regular data)
  | Some e => inr e
  end.

(** [saveCanvas("storage/board.dat")]. *)
Definition saveCanvas (failure : option string) (g : Globals) (d : Disk)
    : process :=
  match WriteFile failure (board g) with
  | inl f => Running g {| board_dat := f; data_json := data_json d |}
  | inr e => Exited 1 (IOFailure e)
  end.

(** [savePlacementData("storage/data.json")]. *)
Definition savePlacementData (failure : option string) (g : Globals)
    (d : Disk) : process :=
  match Marshal (placementData g) with
  | None => Exited 1 JsonError
  | Some placementBytes =>
    match WriteFile failure placementBytes with
    | inl f => Running g {| board_dat := board_dat d; data_json := f |}
    | inr e => Exited 1 (IOFailure e)
    end
  end.

(** One tick of [saveTicker] (lines 67-69): both savers in a row. *)
Definition tick (failure1 failure2 : option string) (p : process) : process :=
  match p with
  | Exited code why => Exited code why
  | Running g d =>
    match saveCanvas failure1 g d with
    | Exited code why => Exited code why
    | Running g1 d1 => savePlacementData failure2 g1 d1
    end
  end.

(** Lines 48-61 of [main]: the two loads, [expectedSize] being
    [width * height]. *)
Definition start (width height defaultColorIndex : Z) (d : Disk)
    : startup Globals :=
  let expectedSize := GoInt.mul width height in
  match loadCanvas (board_dat d) expectedSize defaultColorIndex with
  | MakePanic => MakePanic
  | Fatal why => Fatal why
  | Loaded b =>
    match loadPlacementData (data_json d) with
    | MakePanic => MakePanic
    | Fatal why => Fatal why
    | Loaded l => Loaded {| board := b; placementData := l |}
    end
  end.

(** The operations on the canvas, and the handler that serves each. *)
Inductive request :=
| ReadAllReq
| ReadCellReq (x y : Z)
| FindLatestReq (x y : Z)
| PlaceReq (body : option ClientPixel.t) (now : Z).

Definition serve (width height : Z) (r : request) (g : Globals)
    : reply * Globals :=
  match r with
  | ReadAllReq => getBoard g
  | ReadCellReq x y => ReadCell width height x y g
  | FindLatestReq x y => getPixel x y g
  | PlaceReq body now => postPixel width height body now g
  end.

(** The states of the globals a process can be in: after a start-up
    that returned, then after any request and any tick it survived. *)
Inductive reachable (width height defaultColorIndex : Z)
    : Globals -> Prop :=
| reach_start d g :
    start width height defaultColorIndex d = Loaded g ->
    reachable width height defaultColorIndex g
| reach_serve r g :
    reachable width height defaultColorIndex g ->
    reachable width height defaultColorIndex (serve width height r g).2
| reach_tick failure1 failure2 g d g' d' :
    reachable width height defaultColorIndex g ->
    tick failure1 failure2 (Running g d) = Running g' d' ->
    reachable width height defaultColorIndex g'.

(** The states reached from the bootstrap (no file on disk) by
    placements that were accepted. *)
Inductive placed (width height defaultColorIndex : Z) : Globals -> Prop :=
| placed_bootstrap g :
    start width height defaultColorIndex
      {| board_dat := NotExist; data_json := NotExist |} = Loaded g ->
    placed width height defaultColorIndex g
| placed_post body now g g' :
    placed width height defaultColorIndex g ->
    postPixel width height body now g = (StatusOnly 200, g') ->
    placed width height defaultColorIndex g'.

End Json.

(** ** The spec's reference definitions *)

(** Whether a placement is at [(x, y)]. *)
Definition at_coordinate (x y : Z) (p : ServerPixel.t) : bool :=
  (ServerPixel.X p =? x) && (ServerPixel.Y p =? y).

(** [FindLatest] in the spec's words: of the entries of the log at
    [(x, y)], the one with the greatest insertion index. *)
Definition FindLatest_spec (x y : Z) (log : list ServerPixel.t)
    : option ServerPixel.t :=
  last (filter (fun p => at_coordinate x y p = true) log).

(** One step of the replay, in the spec's words: the placement's
    colour index goes to the cell of index [y*width+x]; a placement off
    the grid changes nothing. *)
Definition replay_one (width : Z) (grid : list Z) (p : ServerPixel.t)
    : list Z :=
  let index := ServerPixel.Y p * width + ServerPixel.X p in
  if index <? 0 then grid
  else <[Z.to_nat index := ServerPixel.Color p]> grid.

(** The grid the replay starts from, in the spec's words: [width*height]
    cells, all equal to [defaultColorIndex]. *)
Definition default_grid (width height defaultColorIndex : Z) : list Z :=
  replicate (Z.to_nat (width * height)) defaultColorIndex.

(** The log replayed in order on the default grid. *)
Definition replay (width height defaultColorIndex : Z)
    (log : list ServerPixel.t) : list Z :=
  foldl (replay_one width) (default_grid width height defaultColorIndex) log.

(** ** The life of the process *)

(** What happens to a running process: a request is served (gin's
    recovery keeps the process alive when a handler panics), or the save
    ticker fires. *)
Inductive event :=
| Served (r : request)
| Ticked (failure1 failure2 : option string).

Definition step (Marshal : list ServerPixel.t -> option (list Z))
    (width height : Z) (p : process) (e : event) : process :=
  match e, p with
  | _, Exited code why => Exited code why
  | Served r, Running g d => Running (serve width height r g).2 d
  | Ticked failure1 failure2, Running g d =>
    tick Marshal failure1 failure2 (Running g d)
  end.

Definition run (Marshal : list ServerPixel.t -> option (list Z))
    (width height : Z) (es : list event) (p : process) : process :=
  foldl (step Marshal width height) p es.

(** ** The palette and [GET /image] *)

(** [color.RGBA]. *)
Record RGBA := mkRGBA { R : Z; G : Z; B : Z; A : Z }.

(** The value of a character as a digit, as [strconv.ParseUint] reads it:
    a decimal digit, or a letter ([c | 0x20] folds the case) counted from
    ten. *)
Definition digit_value (c : ascii) : option Z :=
  let b := Z.of_N (N_of_ascii c) in
  let lower := Z.lor b 32 in
  if (48 <=? b) && (b <=? 57) then Some (b - 48)
  else if (97 <=? lower) && (lower <=? 122) then Some (lower - 97 + 10)
  else None.

(** The digits of [s] in base 16, most significant first, accumulated on
    [acc]; [None] is a character that is no digit below 16. *)
Fixpoint hex_value (acc : Z) (s : string) : option Z :=
  match s with
  | EmptyString => Some acc
  | String c s' =>
    match digit_value c with
    | Some d => if d <? 16 then hex_value (acc * 16 + d) s' else None
    | None => None
    end
  end.

(** [strconv.ParseUint(s, 16, 32)]: [None] is a non-nil error, which the
    empty string, a character that is no hexadecimal digit and a value
    of 2^32 or more all give. *)
Definition ParseUint_16_32 (s : string) : option Z :=
  match s with
  | EmptyString => None
  | _ =>
    match hex_value 0 s with
    | Some values => if values <? 2 ^ 32 then Some values else None
    | None => None
    end
  end.

(** The colour lines 243-248 build from the parsed number. *)
Definition rgba_of (values : Z) : RGBA :=
  {| R := GoInt.to_byte (Z.shiftr values 16);
     G := GoInt.to_byte (Z.land (Z.shiftr values 8) 255);
     B := GoInt.to_byte (Z.land values 255);
     A := 255 |}.

(** [paletteRGBA(palette)]: [inl entry] is the [log.Fatalln] at the first
    entry that does not parse, which ends the process. *)
Fixpoint paletteRGBA (palette : list string) : string + list RGBA :=
  match palette with
  | [] => inr []
  | entry :: rest =>
    match ParseUint_16_32 entry with
    | None => inl entry
    | Some values =>
      match paletteRGBA rest with
      | inl bad => inl bad
      | inr converted => inr (rgba_of values :: converted)
      end
    end
  end.










(** ** Facts on machine integers and slices *)

(** Case analysis on the range tests a handler goes through, closing the
    branch of each test that answers at once. *)
Ltac case_guards :=
  repeat (match goal with
          | |- context [if ?b then _ else _] => destruct b
          end; cbn; [done |]).

Lemma wrap_id z : GoInt.int_min <= z <= GoInt.int_max -> GoInt.wrap z = z.
Proof.
  unfold GoInt.wrap, GoInt.int_min, GoInt.int_max. intros Hz.
  rewrite Z.mod_small; lia.
Qed.

Lemma to_byte_id v : 0 <= v <= 255 -> GoInt.to_byte v = v.
Proof. intros Hv. unfold GoInt.to_byte. apply Z.mod_small. lia. Qed.


(** The index of a cell is computed without overflow on a grid whose
    size is an [int]. *)
Lemma index_exact width height x y :
  width * height <= GoInt.int_max ->
  0 <= x < width -> 0 <= y < height ->
  GoInt.add (GoInt.mul y width) x = y * width + x /\
  0 <= y * width + x < width * height.
Proof.
  intros Hfit Hx Hy.
  assert (0 <= y * width) by nia.
  assert (y * width + x < width * height) by nia.
  unfold GoInt.add, GoInt.mul.
  rewrite (wrap_id (y * width)) by (unfold GoInt.int_min; lia).
  rewrite wrap_id by (unfold GoInt.int_min; lia).
  lia.
Qed.

Lemma slice_get_Some {A} (s : list A) i a :
  Slice.get s i = Some a <-> 0 <= i < Slice.len s /\ s !! Z.to_nat i = Some a.
Proof.
  unfold Slice.get, Slice.len.
  destruct (i <? 0) eqn:Hneg; simpl.
  - apply Z.ltb_lt in Hneg. split; [discriminate | lia].
  - apply Z.ltb_ge in Hneg.
    destruct (Z.of_nat (length s) <=? i) eqn:Hlen.
    + apply Z.leb_le in Hlen. split; [discriminate | lia].
    + apply Z.leb_gt in Hlen. split; [intros ->; split; [lia | done] | tauto].
Qed.

Lemma slice_set_Some {A} (s s' : list A) i a :
  Slice.set s i a = Some s' <->
  0 <= i < Slice.len s /\ s' = <[Z.to_nat i := a]> s.
Proof.
  unfold Slice.set, Slice.len.
  destruct (i <? 0) eqn:Hneg; simpl.
  - apply Z.ltb_lt in Hneg. split; [discriminate | lia].
  - apply Z.ltb_ge in Hneg.
    destruct (Z.of_nat (length s) <=? i) eqn:Hlen.
    + apply Z.leb_le in Hlen. split; [discriminate | lia].
    + apply Z.leb_gt in Hlen.
      split; [intros [= <-]; split; [lia | done] | intros [_ ->]; done].
Qed.

Lemma slice_set_in_range {A} (s : list A) i a :
  0 <= i < Slice.len s -> Slice.set s i a = Some (<[Z.to_nat i := a]> s).
Proof. intros Hi. apply slice_set_Some. done. Qed.


(** [slices.IndexFunc] stops at the first element that satisfies [f]. *)
Lemma IndexFunc_from_first {A} (f : A -> bool) (s : list A) i k e :
  s !! k = Some e -> f e = true ->
  (forall j e', (j < k)%nat -> s !! j = Some e' -> f e' = false) ->
  Slice.IndexFunc_from i s f = i + Z.of_nat k.
Proof.
  revert i k. induction s as [| a s IH]; intros i k Hk Hf Hbefore.
  - destruct k; discriminate.
  - destruct k as [| k]; simpl in *.
    + injection Hk as ->. rewrite Hf. lia.
    + rewrite (Hbefore 0%nat a) by (simpl; first [lia | done]).
      rewrite (IH (i + 1) k Hk Hf).
      * lia.
      * intros j e' Hj He'. apply (Hbefore (S j) e'); [lia | done].
Qed.

Lemma IndexFunc_from_none {A} (f : A -> bool) (s : list A) i :
  (forall e, e ∈ s -> f e = false) -> Slice.IndexFunc_from i s f = -1.
Proof.
  revert i. induction s as [| a s IH]; intros i Hnone; simpl; [done |].
  rewrite Hnone by apply list_elem_of_here.
  apply IH. intros e He. apply Hnone. by apply list_elem_of_further.
Qed.

(** A list with an element that satisfies [f] has a first one. *)
Lemma first_satisfying {A} (f : A -> bool) (s : list A) :
  (exists e, e ∈ s /\ f e = true) ->
  exists k e, s !! k = Some e /\ f e = true /\
    forall j e', (j < k)%nat -> s !! j = Some e' -> f e' = false.
Proof.
  induction s as [| a s IH]; intros [e [Hin Hf]].
  - by apply elem_of_nil in Hin.
  - destruct (f a) eqn:Hfa.
    + exists 0%nat, a. repeat split; [done |]. intros j e' Hj. lia.
    + apply elem_of_cons in Hin as [-> | Hin]; [congruence |].
      destruct IH as (k & e0 & Hk & Hf0 & Hbefore); [by exists e |].
      exists (S k), e0. repeat split; [done | done |].
      intros [| j] e' Hj He'; simpl in He'.
      * by injection He' as <-.
      * apply (Hbefore j); [lia | done].
Qed.

(** ** [POST /pixel] *)

(** What an accepted placement was given and what it did. *)
Lemma postPixel_accepted_inv width height body now g g' :
  postPixel width height body now g = (StatusOnly 200, g') ->
  exists x y color,
    body = Some (ClientPixel.mk x y color) /\
    0 <= color <= 255 /\ 0 <= x < width /\ 0 <= y < height /\
    0 <= GoInt.add (GoInt.mul y width) x < Slice.len (board g) /\
    board g' =
      <[Z.to_nat (GoInt.add (GoInt.mul y width) x) := GoInt.to_byte color]>
        (board g) /\
    placementData g' = placementData g ++ [ServerPixel.mk x y color now].
Proof.
  unfold postPixel, badRequest. destruct body as [[x y color] |]; cbn;
    [| discriminate].
  destruct (color <? 0) eqn:Hc0; [discriminate |].
  destruct (color >? 255) eqn:Hc1; [discriminate |].
  destruct (x <? 0) eqn:Hx0; [discriminate |].
  destruct (x >=? width) eqn:Hx1; [discriminate |].
  destruct (y <? 0) eqn:Hy0; [discriminate |].
  destruct (y >=? height) eqn:Hy1; [discriminate |]. cbn.
  destruct (Slice.set _ _ _) as [b' |] eqn:Hset; [| discriminate].
  intros [= <-]. apply slice_set_Some in Hset as [Hidx ->].
  exists x, y, color. cbn. repeat split; try done; lia.
Qed.

(** A placement that passes the three range tests and indexes inside the
    board is accepted. *)
Lemma postPixel_accepts width height x y color now g :
  0 <= color <= 255 -> 0 <= x < width -> 0 <= y < height ->
  0 <= GoInt.add (GoInt.mul y width) x < Slice.len (board g) ->
  postPixel width height (Some (ClientPixel.mk x y color)) now g =
    (StatusOnly 200,
     {| board :=
          <[Z.to_nat (GoInt.add (GoInt.mul y width) x) := GoInt.to_byte color]>
            (board g);
        placementData := placementData g ++ [ServerPixel.mk x y color now] |}).
Proof.
  intros Hc Hx Hy Hidx. unfold postPixel. cbn.
  replace (color <? 0) with false by lia.
  replace (color >? 255) with false by lia.
  replace (x <? 0) with false by lia.
  replace (x >=? width) with false by lia.
  replace (y <? 0) with false by lia.
  replace (y >=? height) with false by lia. cbn.
  by rewrite slice_set_in_range.
Qed.

(** Every answer other than 200 leaves the globals as they were. *)
Lemma postPixel_refused_unchanged width height body now g :
  (postPixel width height body now g).1 <> StatusOnly 200 ->
  (postPixel width height body now g).2 = g.
Proof.
  unfold postPixel. destruct body as [cp |]; cbn; [| done].
  case_guards.
  destruct (Slice.set _ _ _); cbn; [congruence | done].
Qed.

(** ** [GET /pixel] *)

Lemma getPixel_unchanged x y g : (getPixel x y g).2 = g.
Proof. unfold getPixel. by destruct (Slice.get _ _). Qed.

(** The handler answers with the first placement of the log at the
    coordinate. *)
Lemma getPixel_first x y g k p :
  placementData g !! k = Some p ->
  at_coordinate x y p = true ->
  (forall j q, (j < k)%nat -> placementData g !! j = Some q ->
               at_coordinate x y q = false) ->
  getPixel x y g = (Pixel 200 p, g).
Proof.
  intros Hk Hp Hbefore. unfold getPixel, Slice.IndexFunc.
  change (fun pixel => (ServerPixel.X pixel =? x) && (ServerPixel.Y pixel =? y))
    with (at_coordinate x y).
  rewrite (IndexFunc_from_first _ _ 0 k p Hk Hp Hbefore). cbn.
  assert (Slice.get (placementData g) (0 + Z.of_nat k) = Some p) as ->; [| done].
  apply slice_get_Some. pose proof (lookup_lt_Some _ _ _ Hk).
  unfold Slice.len. split; [lia |]. by rewrite Z.add_0_l, Nat2Z.id.
Qed.

(** With no placement at the coordinate the handler sets 404 and then
    panics on [placementData[-1]]. *)
Lemma getPixel_never_written x y g :
  (forall p, p ∈ placementData g -> at_coordinate x y p = false) ->
  getPixel x y g =
    (IndexPanic (Some 404) (-1) (Slice.len (placementData g)), g).
Proof.
  intros Hnone. unfold getPixel, Slice.IndexFunc.
  change (fun pixel => (ServerPixel.X pixel =? x) && (ServerPixel.Y pixel =? y))
    with (at_coordinate x y).
  by rewrite (IndexFunc_from_none _ _ 0 Hnone).
Qed.

Lemma at_coordinate_true x y p :
  at_coordinate x y p = true <-> ServerPixel.X p = x /\ ServerPixel.Y p = y.
Proof. unfold at_coordinate. rewrite andb_true_iff, !Z.eqb_eq. done. Qed.

Lemma at_coordinate_false x y p :
  at_coordinate x y p = false <-> ~ (ServerPixel.X p = x /\ ServerPixel.Y p = y).
Proof.
  rewrite <- at_coordinate_true. destruct (at_coordinate x y p); split;
    congruence.
Qed.

(** [slices.IndexFunc] finds the head of the sub-list of the elements
    that satisfy [f]. *)
Lemma IndexFunc_from_head {A} (f : A -> bool) (s : list A) i :
  match head (filter (fun e => f e = true) s) with
  | Some e =>
    exists k : nat, Slice.IndexFunc_from i s f = i + Z.of_nat k /\ s !! k = Some e
  | None => Slice.IndexFunc_from i s f = -1
  end.
Proof.
  revert i. induction s as [| a s IH]; intros i; [done |].
  rewrite filter_cons. cbn [Slice.IndexFunc_from].
  destruct (f a) eqn:Hfa.
  - rewrite decide_True by done. exists 0%nat. split; [lia | done].
  - rewrite decide_False by congruence.
    specialize (IH (i + 1)). destruct (head _) as [e |]; [| done].
    destruct IH as [k [Hk He]]. exists (S k). split; [lia | done].
Qed.

Lemma getPixel_head x y g :
  getPixel x y g =
    match head (filter (fun p => at_coordinate x y p = true) (placementData g)) with
    | Some p => (Pixel 200 p, g)
    | None => (IndexPanic (Some 404) (-1) (Slice.len (placementData g)), g)
    end.
Proof.
  unfold getPixel, Slice.IndexFunc.
  change (fun pixel => (ServerPixel.X pixel =? x) && (ServerPixel.Y pixel =? y))
    with (at_coordinate x y).
  pose proof (IndexFunc_from_head (at_coordinate x y) (placementData g) 0) as H.
  destruct (head _) as [p |].
  - destruct H as [k [-> Hk]].
    assert (Slice.get (placementData g) (0 + Z.of_nat k) = Some p) as ->.
    { apply slice_get_Some. pose proof (lookup_lt_Some _ _ _ Hk).
      unfold Slice.len. split; [lia |]. by rewrite Z.add_0_l, Nat2Z.id. }
    done.
  - rewrite H. done.
Qed.

Lemma filter_at_coordinate_nil x y (l : list ServerPixel.t) :
  (forall p, p ∈ l -> ~ (ServerPixel.X p = x /\ ServerPixel.Y p = y)) ->
  filter (fun p => at_coordinate x y p = true) l = [].
Proof.
  induction l as [| a l IH]; intros Hnone; [done |].
  rewrite filter_cons_False.
  - apply IH. intros p Hp. apply Hnone. by apply list_elem_of_further.
  - rewrite at_coordinate_true. apply Hnone, list_elem_of_here.
Qed.

(** ** The claims *)

(** C1, as the spec states it, fails on [GET /pixel]: on a fresh 10x10
    canvas, colours 1, 2 and 3 are placed at (5,5) in this order; the
    latest placement there (greatest insertion index) has colour 3, and
    the handler answers with the placement of colour 1. *)
Lemma getPixel_three_colours_answers_first :
  exists g0 g1 g2 g3,
    start (fun _ => None) 10 10 0
      {| board_dat := NotExist; data_json := NotExist |} = Loaded g0 /\
    postPixel 10 10 (Some (ClientPixel.mk 5 5 1)) 1000 g0 = (StatusOnly 200, g1) /\
    postPixel 10 10 (Some (ClientPixel.mk 5 5 2)) 2000 g1 = (StatusOnly 200, g2) /\
    postPixel 10 10 (Some (ClientPixel.mk 5 5 3)) 3000 g2 = (StatusOnly 200, g3) /\
    FindLatest_spec 5 5 (placementData g3) = Some (ServerPixel.mk 5 5 3 3000) /\
    getPixel 5 5 g3 = (Pixel 200 (ServerPixel.mk 5 5 1 1000), g3).
Proof.
  do 4 eexists. repeat split; vm_compute; reflexivity.
Qed.

(** C1, amended: whenever the log holds a placement at [(x, y)],
    [GET /pixel] answers 200 with the matching placement of the smallest
    insertion index (the first one appended) and leaves the globals
    alone; in particular, after three accepted placements at a coordinate
    the log had no entry for, it answers with the first of the three,
    whatever the three timestamps are. *)
Theorem getPixel_returns_first_match (x y : Z) (g : Globals) :
  ((exists p, p ∈ placementData g /\
              ServerPixel.X p = x /\ ServerPixel.Y p = y) ->
   exists (i : nat) p,
     getPixel x y g = (Pixel 200 p, g) /\
     placementData g !! i = Some p /\
     ServerPixel.X p = x /\ ServerPixel.Y p = y /\
     forall (j : nat) q, (j < i)%nat -> placementData g !! j = Some q ->
       ~ (ServerPixel.X q = x /\ ServerPixel.Y q = y))
  /\
  (forall width height c1 c2 c3 t1 t2 t3 g1 g2 g3,
     (forall p, p ∈ placementData g ->
        ~ (ServerPixel.X p = x /\ ServerPixel.Y p = y)) ->
     postPixel width height (Some (ClientPixel.mk x y c1)) t1 g
       = (StatusOnly 200, g1) ->
     postPixel width height (Some (ClientPixel.mk x y c2)) t2 g1
       = (StatusOnly 200, g2) ->
     postPixel width height (Some (ClientPixel.mk x y c3)) t3 g2
       = (StatusOnly 200, g3) ->
     getPixel x y g3 = (Pixel 200 (ServerPixel.mk x y c1 t1), g3)).
Proof.
  split.
  - intros (p0 & Hin & Hx & Hy).
    destruct (first_satisfying (at_coordinate x y) (placementData g))
      as (k & p & Hk & Hp & Hbefore).
    { exists p0. split; [done |]. by apply at_coordinate_true. }
    exists k, p. split; [by apply (getPixel_first x y g k p) |].
    apply at_coordinate_true in Hp as [Hpx Hpy].
    repeat split; try done.
    intros j q Hj Hq. apply at_coordinate_false. by apply (Hbefore j).
  - intros width height c1 c2 c3 t1 t2 t3 g1 g2 g3 Hfresh H1 H2 H3.
    apply postPixel_accepted_inv in H1
      as (x1 & y1 & k1 & [= <- <- <-] & _ & _ & _ & _ & _ & Hl1).
    apply postPixel_accepted_inv in H2
      as (x2 & y2 & k2 & [= <- <- <-] & _ & _ & _ & _ & _ & Hl2).
    apply postPixel_accepted_inv in H3
      as (x3 & y3 & k3 & [= <- <- <-] & _ & _ & _ & _ & _ & Hl3).
    apply (getPixel_first x y g3 (length (placementData g))).
    + rewrite Hl3, Hl2, Hl1, <- !app_assoc.
      rewrite lookup_app_r by lia. by rewrite Nat.sub_diag.
    + apply at_coordinate_true. done.
    + intros j q Hj Hq. apply at_coordinate_false, Hfresh.
      rewrite Hl3, Hl2, Hl1, <- !app_assoc, lookup_app_l in Hq by done.
      apply list_elem_of_lookup. by exists j.
Qed.

(** The amended C1 at work: a log of four placements, two of them at
    (1,0); and the three placements of the spec's example. *)
Lemma getPixel_returns_first_match_witness :
  let g := {| board := [0; 9; 4; 5];
              placementData := [ServerPixel.mk 0 1 4 10; ServerPixel.mk 1 0 7 20;
                                ServerPixel.mk 1 1 5 15; ServerPixel.mk 1 0 9 5] |} in
  (exists (i : nat) p,
     getPixel 1 0 g = (Pixel 200 p, g) /\
     placementData g !! i = Some p /\
     ServerPixel.X p = 1 /\ ServerPixel.Y p = 0 /\
     forall (j : nat) q, (j < i)%nat -> placementData g !! j = Some q ->
       ~ (ServerPixel.X q = 1 /\ ServerPixel.Y q = 0)) /\
  getPixel 0 0
    {| board := [3; 9; 4; 5];
       placementData := placementData g ++
         [ServerPixel.mk 0 0 1 30; ServerPixel.mk 0 0 2 20;
          ServerPixel.mk 0 0 3 10] |}
  = (Pixel 200 (ServerPixel.mk 0 0 1 30),
     {| board := [3; 9; 4; 5];
        placementData := placementData g ++
          [ServerPixel.mk 0 0 1 30; ServerPixel.mk 0 0 2 20;
           ServerPixel.mk 0 0 3 10] |}).
Proof.
  intros g. split.
  - apply (proj1 (getPixel_returns_first_match 1 0 g)).
    exists (ServerPixel.mk 1 0 7 20). split; [| done].
    apply list_elem_of_lookup. by exists 1%nat.
  - eapply (proj2 (getPixel_returns_first_match 0 0 g) 2 2 1 2 3 30 20 10).
    + intros p Hp [Hx Hy]. apply list_elem_of_lookup in Hp as [i Hi].
      do 4 (destruct i as [| i]; [injection Hi as <-; discriminate |]).
      discriminate.
    + reflexivity.
    + reflexivity.
    + reflexivity.
Defined.

(** C2, as the spec states it, fails in its last part: on a fresh 1x1
    canvas with a palette of three colours, colour 1 and then colour 2
    are placed at (0,0), both accepted; the cell reads 2, and
    [GET /pixel] still answers with the placement of colour 1. *)
Lemma postPixel_then_getPixel_answers_older :
  let config := {| Width := 1; Height := 1; DefaultColorIndex := 0;
                   Palette := ["000000"; "FFFFFF"; "FF0000"]%string |} in
  exists g0 g1 g2,
    0 <= 2 < Slice.len (Palette config) /\
    start (fun _ => None) (Width config) (Height config)
      (DefaultColorIndex config)
      {| board_dat := NotExist; data_json := NotExist |} = Loaded g0 /\
    postPixel (Width config) (Height config)
      (Some (ClientPixel.mk 0 0 1)) 1000 g0 = (StatusOnly 200, g1) /\
    postPixel (Width config) (Height config)
      (Some (ClientPixel.mk 0 0 2)) 2000 g1 = (StatusOnly 200, g2) /\
    ReadCell (Width config) (Height config) 0 0 g2 = (Bytes 200 [2], g2) /\
    getPixel 0 0 g2 = (Pixel 200 (ServerPixel.mk 0 0 1 1000), g2) /\
    ServerPixel.Color (ServerPixel.mk 0 0 1 1000) <> 2.
Proof.
  intros config. do 3 eexists.
  split; [unfold Slice.len, config; simpl; lia |].
  repeat split; try (vm_compute; reflexivity). done.
Qed.

(** C2, amended: on a board of [width*height] cells, a placement at an
    in-bounds [(x, y)] is accepted whenever its colour is in [0, 255];
    an accepted placement writes the colour into the board at index
    [y*width+x] and appends exactly the placement [{x, y, colour, now}] to
    the log, so that the cell then reads the colour; [GET /pixel] then
    answers with the earliest placement of the log at [(x, y)], which is
    the new one exactly when the log held none there before. *)
Theorem postPixel_writes_cell_and_log (width height x y colorIndex now : Z)
    (g : Globals) :
  Slice.len (board g) = width * height ->
  width * height <= GoInt.int_max ->
  0 <= x < width -> 0 <= y < height ->
  (0 <= colorIndex <= 255 ->
   (postPixel width height (Some (ClientPixel.mk x y colorIndex)) now g).1
     = StatusOnly 200)
  /\
  (forall g',
     postPixel width height (Some (ClientPixel.mk x y colorIndex)) now g
       = (StatusOnly 200, g') ->
     board g' = <[Z.to_nat (y * width + x) := colorIndex]> (board g) /\
     board g' !! Z.to_nat (y * width + x) = Some colorIndex /\
     placementData g' =
       placementData g ++ [ServerPixel.mk x y colorIndex now] /\
     ReadCell width height x y g' = (Bytes 200 [colorIndex], g') /\
     getPixel x y g' =
       (Pixel 200
          (default (ServerPixel.mk x y colorIndex now)
             (head (filter (fun p => at_coordinate x y p = true)
                      (placementData g)))),
        g') /\
     ((forall p, p ∈ placementData g ->
         ~ (ServerPixel.X p = x /\ ServerPixel.Y p = y)) ->
      getPixel x y g' = (Pixel 200 (ServerPixel.mk x y colorIndex now), g'))).
Proof.
  intros Hlen Hfit Hx Hy.
  destruct (index_exact width height x y Hfit Hx Hy) as [Hindex Hrange].
  split.
  - intros Hc. rewrite postPixel_accepts; [done | done | done | done |].
    rewrite Hindex, Hlen. done.
  - intros g' Hpost.
    apply postPixel_accepted_inv in Hpost
      as (x' & y' & c' & [= <- <- <-] & Hc & _ & _ & _ & Hb & Hl).
    rewrite Hindex in Hb. rewrite to_byte_id in Hb by done.
    assert (Z.to_nat (y * width + x) < length (board g))%nat as Hlt.
    { unfold Slice.len in Hlen. lia. }
    assert (board g' !! Z.to_nat (y * width + x) = Some colorIndex) as Hcell.
    { rewrite Hb. by apply list_lookup_insert_eq. }
    assert (getPixel x y g' =
      (Pixel 200
         (default (ServerPixel.mk x y colorIndex now)
            (head (filter (fun p => at_coordinate x y p = true)
                     (placementData g)))), g')) as Hget.
    { rewrite getPixel_head, Hl, filter_app, filter_cons_True
        by (by apply at_coordinate_true).
      by destruct (filter _ (placementData g)). }
    repeat split; try done.
    + unfold ReadCell, cell.
      replace (x <? 0) with false by lia.
      replace (x >=? width) with false by lia.
      replace (y <? 0) with false by lia.
      replace (y >=? height) with false by lia. cbn.
      rewrite Hindex.
      assert (Slice.get (board g') (y * width + x) = Some colorIndex) as ->;
        [| done].
      apply slice_get_Some. split; [| done].
      unfold Slice.len in *. rewrite Hb, length_insert. lia.
    + intros Hfresh. rewrite Hget.
      by rewrite filter_at_coordinate_nil.
Qed.

(** The amended C2 on a 2x2 canvas: colour 7 goes to (1,1), index 3. *)
Lemma postPixel_writes_cell_and_log_witness :
  let g := {| board := [0; 0; 0; 0]; placementData := [] |} in
  (postPixel 2 2 (Some (ClientPixel.mk 1 1 7)) 42 g).1 = StatusOnly 200 /\
  forall g',
    postPixel 2 2 (Some (ClientPixel.mk 1 1 7)) 42 g = (StatusOnly 200, g') ->
    board g' = [0; 0; 0; 7] /\
    placementData g' = [ServerPixel.mk 1 1 7 42] /\
    ReadCell 2 2 1 1 g' = (Bytes 200 [7], g') /\
    getPixel 1 1 g' = (Pixel 200 (ServerPixel.mk 1 1 7 42), g').
Proof.
  intros g.
  destruct (postPixel_writes_cell_and_log 2 2 1 1 7 42 g) as [Hok Heffect].
  - reflexivity.
  - unfold GoInt.int_max. lia.
  - lia.
  - lia.
  - split; [apply Hok; lia |].
    intros g' Hpost.
    destruct (Heffect g' Hpost) as (Hb & _ & Hl & Hread & Hget & _).
    repeat split; assumption.
Defined.

(** C3, as the spec states it, fails: with a palette of two colours,
    colour 5 is outside [0, paletteSize), and [POST /pixel] accepts it on
    a fresh 1x1 canvas and stores it. *)
Lemma postPixel_accepts_colour_outside_palette :
  let config := {| Width := 1; Height := 1; DefaultColorIndex := 0;
                   Palette := ["000000"; "FFFFFF"]%string |} in
  exists g0 g1,
    ~ (0 <= 5 < Slice.len (Palette config)) /\
    start (fun _ => None) (Width config) (Height config)
      (DefaultColorIndex config)
      {| board_dat := NotExist; data_json := NotExist |} = Loaded g0 /\
    postPixel (Width config) (Height config)
      (Some (ClientPixel.mk 0 0 5)) 1000 g0 = (StatusOnly 200, g1) /\
    validation_error_of
      (postPixel (Width config) (Height config)
         (Some (ClientPixel.mk 0 0 5)) 1000 g0).1 = None /\
    board g1 = [5] /\ g1 <> g0.
Proof.
  intros config. do 2 eexists.
  split; [unfold Slice.len, config; simpl; lia |].
  repeat split; try (vm_compute; reflexivity).
  vm_compute. discriminate.
Qed.

(** C3, amended: the colour range of [POST /pixel] is [0, 256), whatever
    the palette.  For every colour outside [0, 256) and every [(x, y)]
    the placement fails with "color out of range" (the spec's
    InvalidColor) and leaves board and log unchanged; for a colour inside
    [0, 256) it never fails with InvalidColor. *)
Theorem postPixel_colour_range (width height x y colorIndex now : Z)
    (g : Globals) :
  (~ (0 <= colorIndex < 256) ->
   postPixel width height (Some (ClientPixel.mk x y colorIndex)) now g
     = (Message 400 "color out of range", g) /\
   validation_error_of
     (postPixel width height (Some (ClientPixel.mk x y colorIndex)) now g).1
     = Some InvalidColor)
  /\
  (0 <= colorIndex < 256 ->
   validation_error_of
     (postPixel width height (Some (ClientPixel.mk x y colorIndex)) now g).1
     <> Some InvalidColor).
Proof.
  unfold postPixel, badRequest. cbn. split.
  - intros Hc.
    assert ((colorIndex <? 0) || (colorIndex >? 255) = true) as ->; [| done].
    apply orb_true_iff. rewrite Z.ltb_lt, Z.gtb_gt. lia.
  - intros Hc.
    replace (colorIndex <? 0) with false by lia.
    replace (colorIndex >? 255) with false by lia. cbn.
    case_guards.
    by destruct (Slice.set _ _ _).
Qed.

(** The amended C3 on a 4x4 canvas: colour 256 is refused in bounds,
    colour 255 is not refused for its colour. *)
Lemma postPixel_colour_range_witness :
  let g := {| board := replicate 16 0; placementData := [] |} in
  postPixel 4 4 (Some (ClientPixel.mk 1 2 256)) 7 g
    = (Message 400 "color out of range", g) /\
  validation_error_of (postPixel 4 4 (Some (ClientPixel.mk 1 2 255)) 7 g).1
    <> Some InvalidColor.
Proof.
  intros g. split.
  - apply (proj1 (postPixel_colour_range 4 4 1 2 256 7 g)). lia.
  - apply (proj2 (postPixel_colour_range 4 4 1 2 255 7 g)). lia.
Defined.

(** C6, as the spec states it, fails: the colour is tested first, so a
    placement out of bounds whose colour is out of range too fails with
    InvalidColor, not with OutOfBounds. *)
Lemma postPixel_out_of_bounds_reports_colour :
  let g := {| board := replicate 100 0; placementData := [] |} in
  ~ (0 <= -1 < 10) /\
  postPixel 10 10 (Some (ClientPixel.mk (-1) 0 300)) 1000 g
    = (Message 400 "color out of range", g) /\
  validation_error_of
    (postPixel 10 10 (Some (ClientPixel.mk (-1) 0 300)) 1000 g).1
    = Some InvalidColor /\
  validation_error_of
    (postPixel 10 10 (Some (ClientPixel.mk (-1) 0 300)) 1000 g).1
    <> Some OutOfBounds.
Proof.
  intros g. repeat split; try (vm_compute; reflexivity).
  - lia.
  - vm_compute. discriminate.
Qed.

(** C6, amended: for every [(x, y)] outside the grid, [POST /pixel] fails
    with a validation error and leaves board and log unchanged; the
    error is OutOfBounds when the colour is in [0, 255] and InvalidColor
    otherwise, the colour being tested first.  The spec's [ReadCell]
    fails with OutOfBounds there and changes nothing. *)
Theorem out_of_bounds_refused (width height x y colorIndex now : Z)
    (g : Globals) :
  ~ (0 <= x < width /\ 0 <= y < height) ->
  (postPixel width height (Some (ClientPixel.mk x y colorIndex)) now g).2 = g /\
  (0 <= colorIndex <= 255 ->
   validation_error_of
     (postPixel width height (Some (ClientPixel.mk x y colorIndex)) now g).1
     = Some OutOfBounds) /\
  (~ (0 <= colorIndex <= 255) ->
   validation_error_of
     (postPixel width height (Some (ClientPixel.mk x y colorIndex)) now g).1
     = Some InvalidColor) /\
  validation_error_of (ReadCell width height x y g).1 = Some OutOfBounds /\
  (ReadCell width height x y g).2 = g.
Proof.
  intros Hout. unfold postPixel, ReadCell, badRequest. cbn.
  destruct (x <? 0) eqn:Hx0; destruct (x >=? width) eqn:Hx1;
    destruct (y <? 0) eqn:Hy0; destruct (y >=? height) eqn:Hy1;
    try (exfalso; lia); cbn;
    (destruct ((colorIndex <? 0) || (colorIndex >? 255)) eqn:Hc; cbn;
     [apply orb_true_iff in Hc; rewrite Z.ltb_lt, Z.gtb_gt in Hc
     |apply orb_false_iff in Hc; rewrite Z.ltb_ge in Hc;
      destruct Hc as [Hc0 Hc1];
      assert (colorIndex <= 255) by (destruct (colorIndex >? 255) eqn:E;
        [discriminate | lia])];
     repeat split; try done; intros; exfalso; lia).
Qed.

(** The amended C6 on a 10x10 canvas, at (10, 3). *)
Lemma out_of_bounds_refused_witness :
  let g := {| board := replicate 100 0; placementData := [] |} in
  (postPixel 10 10 (Some (ClientPixel.mk 10 3 4)) 9 g).2 = g /\
  validation_error_of (postPixel 10 10 (Some (ClientPixel.mk 10 3 4)) 9 g).1
    = Some OutOfBounds /\
  validation_error_of (ReadCell 10 10 10 3 g).1 = Some OutOfBounds.
Proof.
  intros g.
  destruct (out_of_bounds_refused 10 10 10 3 4 9 g)
    as (Hsame & Hbounds & _ & Hread & _).
  - lia.
  - split; [exact Hsame | split; [apply Hbounds; lia | exact Hread]].
Defined.

(** ** Loading and saving *)

Lemma make_nonneg n :
  0 <= n <= Slice.max_alloc ->
  Slice.make n = Some (replicate (Z.to_nat n) 0).
Proof.
  intros Hn. unfold Slice.make.
  replace (n <? 0) with false by lia.
  by replace (n >? Slice.max_alloc) with false by lia.
Qed.

Lemma make_out_of_range n :
  ~ (0 <= n <= Slice.max_alloc) -> Slice.make n = None.
Proof.
  intros Hn. unfold Slice.make.
  destruct (n <? 0) eqn:Hneg; [done |].
  destruct (n >? Slice.max_alloc) eqn:Hbig; [done |]. lia.
Qed.

Lemma make_Some n b :
  Slice.make n = Some b -> 0 <= n <= Slice.max_alloc /\ Slice.len b = n.
Proof.
  unfold Slice.make, Slice.len.
  destruct (n <? 0) eqn:Hneg; [discriminate |].
  destruct (n >? Slice.max_alloc) eqn:Hbig; [discriminate |].
  intros [= <-]. rewrite length_replicate. lia.
Qed.

(** The loop of [loadCanvas] over the first [n] cells. *)
Lemma fill_prefix (v : Z) (n : nat) (b : list Z) :
  (n <= length b)%nat ->
  foldl (fun acc i => <[i := v]> acc) b (seq 0 n) = replicate n v ++ drop n b.
Proof.
  induction n as [| n IH]; intros Hn; [by rewrite drop_0 |].
  rewrite seq_S, foldl_app, IH by lia. cbn.
  destruct (lookup_lt_is_Some_2 b n) as [c Hc]; [lia |].
  rewrite insert_app_r_alt by (rewrite length_replicate; lia).
  rewrite length_replicate, Nat.sub_diag, (drop_S _ _ _ Hc). cbn.
  change (v :: drop (S n) b) with ([v] ++ drop (S n) b).
  rewrite app_assoc. change [v] with (replicate 1 v).
  rewrite <- replicate_add. by replace (n + 1)%nat with (S n) by lia.
Qed.

Lemma fill_replicate (b : list Z) (v : Z) : fill b v = replicate (length b) v.
Proof.
  unfold fill. rewrite fill_prefix by done.
  by rewrite drop_all, app_nil_r.
Qed.

Lemma max_rw_nat :
  exists m : nat, Z.to_nat max_rw = m /\ Z.of_nat m = max_rw.
Proof.
  exists (Z.to_nat max_rw). split; [done |].
  apply Z2Nat.id. unfold max_rw. apply Z.pow_nonneg. done.
Qed.

(** One [Read] into a buffer as long as the file: the first [max_rw]
    bytes of the file arrive, the rest of the buffer stays. *)
Lemma read_into_once (content buf : list Z) :
  length content = length buf ->
  read_into content buf =
    Some (take (Z.to_nat max_rw) content ++ drop (Z.to_nat max_rw) buf).
Proof.
  intros Hlen.
  assert (read_into content buf =
    Some (take (Z.to_nat (Z.min (Z.min (Slice.len buf) (Slice.len content))
                            max_rw)) content
          ++ drop (Z.to_nat (Z.min (Z.min (Slice.len buf) (Slice.len content))
                               max_rw)) buf)) as ->.
  { unfold read_into. destruct buf; destruct content;
      first [discriminate | reflexivity]. }
  unfold Slice.len. rewrite <- Hlen, Z.min_id.
  destruct max_rw_nat as (m & Hm & Hmz). rewrite <- Hmz, Nat2Z.id.
  clear Hm Hmz.
  destruct (Nat.le_gt_cases (length content) m) as [Hle | Hgt].
  - rewrite Z.min_l, Nat2Z.id by lia.
    rewrite (take_ge content m) by lia.
    rewrite firstn_all, !drop_ge by lia. reflexivity.
  - rewrite Z.min_r, Nat2Z.id by lia. reflexivity.
Qed.

Lemma read_into_full (content buf : list Z) :
  length content = length buf -> Slice.len content <= max_rw ->
  read_into content buf = Some content.
Proof.
  intros Hlen Hsmall. rewrite read_into_once by exact Hlen.
  unfold Slice.len in Hsmall.
  destruct max_rw_nat as (m & -> & Hmz). rewrite <- Hmz in Hsmall.
  rewrite take_ge, drop_ge by lia. apply f_equal, app_nil_r.
Qed.

Lemma read_into_length (content buf buf' : list Z) :
  length content = length buf -> read_into content buf = Some buf' ->
  length buf' = length buf.
Proof.
  intros Hlen Hread. rewrite read_into_once in Hread by exact Hlen.
  destruct max_rw_nat as (m & Hm & _). rewrite Hm in Hread.
  injection Hread as <-.
  rewrite length_app, length_take, length_drop. lia.
Qed.

Lemma loadCanvas_NotExist expectedSize defaultColor :
  0 <= expectedSize <= Slice.max_alloc ->
  loadCanvas NotExist expectedSize defaultColor =
    Loaded (replicate (Z.to_nat expectedSize) (GoInt.to_byte defaultColor)).
Proof.
  intros Hn. unfold loadCanvas. rewrite make_nonneg by done.
  by rewrite fill_replicate, length_replicate.
Qed.

(** Whatever [loadCanvas] leaves in [board] has [expectedSize] cells. *)
Lemma loadCanvas_length path expectedSize defaultColor b :
  loadCanvas path expectedSize defaultColor = Loaded b ->
  Slice.len b = expectedSize.
Proof.
  unfold loadCanvas.
  destruct (Slice.make expectedSize) as [b0 |] eqn:Hmake; [| discriminate].
  apply make_Some in Hmake as [Hn Hb0].
  destruct path as [| e | size e | size e | content].
  - intros [= <-]. unfold Slice.len in *.
    by rewrite fill_replicate, length_replicate.
  - discriminate.
  - by destruct (negb _).
  - by destruct (negb _).
  - destruct (negb _) eqn:Hsize; [discriminate |].
    apply negb_false_iff, Z.eqb_eq in Hsize.
    destruct (read_into content b0) as [b1 |] eqn:Hread; [| discriminate].
    intros [= <-]. unfold Slice.len in *.
    rewrite (read_into_length content b0 b1); [done | lia | done].
Qed.

Lemma tick_running Marshal failure1 failure2 g d g' d' :
  tick Marshal failure1 failure2 (Running g d) = Running g' d' -> g' = g.
Proof.
  unfold tick, saveCanvas, savePlacementData.
  destruct (WriteFile failure1 _); [| discriminate].
  destruct (Marshal _); [| discriminate].
  destruct (WriteFile failure2 _); [| discriminate].
  by intros [= <- _].
Qed.

Lemma serve_board_length width height r g :
  Slice.len (board (serve width height r g).2) = Slice.len (board g).
Proof.
  destruct r as [| x y | x y | body now]; cbn.
  - done.
  - unfold ReadCell.
    case_guards.
    by destruct (cell _ _ _ _).
  - by rewrite getPixel_unchanged.
  - unfold postPixel. destruct body as [cp |]; cbn; [| done].
    case_guards.
    destruct (Slice.set _ _ _) as [b' |] eqn:Hset; cbn; [| done].
    apply slice_set_Some in Hset as [_ ->].
    unfold Slice.len. by rewrite length_insert.
Qed.

(** C7, as the spec states it, fails off the range of a byte and off the
    range of a length: with default colour index 300 the cells hold
    [byte(300)], which is 44; a negative size and a size above the
    allocator's limit make [make] panic. *)
Lemma loadCanvas_missing_file_off_range :
  loadCanvas NotExist 1 300 = Loaded [44] /\
  44 <> 300 /\
  loadCanvas NotExist (-1) 0 = MakePanic /\
  loadCanvas NotExist (2 ^ 48 + 1) 0 = MakePanic.
Proof. repeat split; try (vm_compute; reflexivity). lia. Qed.

(** C7, amended: for every [expectedSize] in [0, 2^48] (the lengths
    [make] accepts) and every [defaultColorIndex], [loadCanvas] on a path
    that does not exist returns without error a buffer of exactly
    [expectedSize] bytes, all equal to [byte(defaultColorIndex)], which
    is [defaultColorIndex] itself when that is in [0, 255]; for every
    other [expectedSize] it panics.  [loadPlacementData] on a path that
    does not exist returns without error the empty sequence. *)
Theorem load_missing_files (Unmarshal : list Z -> option (list ServerPixel.t))
    (expectedSize defaultColorIndex : Z) :
  (0 <= expectedSize <= Slice.max_alloc ->
   exists b,
     loadCanvas NotExist expectedSize defaultColorIndex = Loaded b /\
     Slice.len b = expectedSize /\
     (forall c, c ∈ b -> c = GoInt.to_byte defaultColorIndex) /\
     (0 <= defaultColorIndex <= 255 -> forall c, c ∈ b -> c = defaultColorIndex))
  /\
  (~ (0 <= expectedSize <= Slice.max_alloc) ->
   loadCanvas NotExist expectedSize defaultColorIndex = MakePanic)
  /\ loadPlacementData Unmarshal NotExist = Loaded [].
Proof.
  split; [| split; [| reflexivity]].
  - intros Hn.
    exists (replicate (Z.to_nat expectedSize) (GoInt.to_byte defaultColorIndex)).
    split; [by apply loadCanvas_NotExist |].
    split; [unfold Slice.len; rewrite length_replicate; lia |].
    assert (forall c,
      c ∈ replicate (Z.to_nat expectedSize) (GoInt.to_byte defaultColorIndex) ->
      c = GoInt.to_byte defaultColorIndex) as Hall.
    { intros c Hc. by apply elem_of_replicate in Hc as [-> _]. }
    split; [exact Hall |].
    intros Hd c Hc. rewrite (Hall c Hc). by apply to_byte_id.
  - intros Hn. unfold loadCanvas. by rewrite make_out_of_range.
Qed.

(** The amended C7 at size 3 and default colour 2. *)
Lemma load_missing_files_witness :
  (exists b,
     loadCanvas NotExist 3 2 = Loaded b /\
     Slice.len b = 3 /\
     (forall c, c ∈ b -> c = GoInt.to_byte 2) /\
     (0 <= 2 <= 255 -> forall c, c ∈ b -> c = 2))
  /\ loadPlacementData (fun _ => None) NotExist = Loaded [].
Proof.
  destruct (load_missing_files (fun _ => None) 3 2) as (Hload & _ & Hlog).
  split; [| exact Hlog].
  apply Hload. unfold Slice.max_alloc. lia.
Defined.

(** C8: what [loadCanvas] does with a grid file that exists
    ([main] passes [width*height] for [expectedSize]).  A byte length
    other than [expectedSize] never gives a buffer: start-up aborts, by
    [log.Fatalf] with the size mismatch.  A file of [expectedSize] bytes
    is returned byte for byte when it has at most 2^30 bytes.  A longer
    one is not: the one [Read] of line 188 delivers its first 2^30
    bytes, the count is dropped, and the rest of the board stays 0. *)
Theorem loadCanvas_reads_once (content : list Z)
    (expectedSize defaultColor : Z) :
  (Slice.len content <> expectedSize ->
   (forall b, loadCanvas (Regular content) expectedSize defaultColor <> Loaded b) /\
   (0 <= expectedSize <= Slice.max_alloc ->
    loadCanvas (Regular content) expectedSize defaultColor
      = Fatal (SizeMismatch (Slice.len content) expectedSize)))
  /\
  (Slice.len content = expectedSize -> expectedSize <= max_rw ->
   loadCanvas (Regular content) expectedSize defaultColor = Loaded content)
  /\
  (Slice.len content = expectedSize ->
   max_rw < expectedSize <= Slice.max_alloc ->
   loadCanvas (Regular content) expectedSize defaultColor
     = Loaded (take (Z.to_nat max_rw) content
               ++ replicate (Z.to_nat (expectedSize - max_rw)) 0)).
Proof.
  assert (0 <= max_rw <= Slice.max_alloc) as Hlimits.
  { unfold max_rw, Slice.max_alloc. split; [by apply Z.pow_nonneg |].
    apply Z.pow_le_mono_r; done. }
  split; [| split].
  - intros Hsize.
    assert (negb (Slice.len content =? expectedSize) = true) as Hne
      by (by apply negb_true_iff, Z.eqb_neq).
    split.
    + intros b Hb. unfold loadCanvas in Hb.
      destruct (Slice.make expectedSize); [| discriminate].
      rewrite Hne in Hb. discriminate.
    + intros Hn. unfold loadCanvas. rewrite make_nonneg by exact Hn.
      by rewrite Hne.
  - intros Hsize Hsmall. unfold loadCanvas.
    assert (0 <= expectedSize) as Hn by (unfold Slice.len in Hsize; lia).
    rewrite make_nonneg by lia.
    assert (negb (Slice.len content =? expectedSize) = false) as ->
      by (by apply negb_false_iff, Z.eqb_eq).
    rewrite read_into_full; [reflexivity | | lia].
    rewrite length_replicate. unfold Slice.len in Hsize. lia.
  - intros Hsize Hbig. unfold loadCanvas.
    rewrite make_nonneg by lia.
    assert (negb (Slice.len content =? expectedSize) = false) as ->
      by (by apply negb_false_iff, Z.eqb_eq).
    rewrite read_into_once
      by (rewrite length_replicate; unfold Slice.len in Hsize; lia).
    destruct max_rw_nat as (m & Hm & Hmz). rewrite Hm.
    rewrite drop_replicate. do 3 f_equal. lia.
Qed.

(** The failing input of C8: a grid file of 2^30+1 bytes, each 1, loaded
    with the expected size 2^30+1.  The board ends with a 0 where the
    file ends with a 1. *)
Lemma loadCanvas_reads_once_witness :
  loadCanvas (Regular (replicate (Z.to_nat (max_rw + 1)) 1)) (max_rw + 1) 0
    = Loaded (replicate (Z.to_nat max_rw) 1 ++ [0]).
Proof.
  destruct max_rw_nat as (m & Hm & Hmz).
  assert (0 <= max_rw <= Slice.max_alloc - 1) as Hlimits.
  { unfold max_rw, Slice.max_alloc. split; [by apply Z.pow_nonneg |].
    assert (2 ^ 30 < 2 ^ 48) by (by apply Z.pow_lt_mono_r). lia. }
  destruct (loadCanvas_reads_once (replicate (Z.to_nat (max_rw + 1)) 1)
              (max_rw + 1) 0) as (_ & _ & Hload).
  rewrite Hload.
  - replace (Z.to_nat (max_rw + 1)) with (S m) by lia.
    replace (max_rw + 1 - max_rw) with 1 by lia.
    rewrite Hm, take_replicate. do 2 f_equal.
    f_equal. lia.
  - unfold Slice.len. rewrite length_replicate. lia.
  - lia.
Defined.

(** C5, as the spec states it, fails: a write failure of either saver
    ends the process, so the tick after it never runs. *)
Lemma save_failure_exits_process :
  let g := {| board := [1; 0; 0; 2];
              placementData := [ServerPixel.mk 0 0 1 10; ServerPixel.mk 1 1 2 20] |} in
  let d := {| board_dat := NotExist; data_json := NotExist |} in
  let Marshal := fun _ : list ServerPixel.t => Some [91; 93] in
  let e := "no space left on device"%string in
  tick Marshal (Some e) None (Running g d) = Exited 1 (IOFailure e) /\
  tick Marshal None (Some e) (Running g d) = Exited 1 (IOFailure e) /\
  tick Marshal None None (tick Marshal (Some e) None (Running g d))
    = Exited 1 (IOFailure e).
Proof. repeat split. Qed.

(** C5, amended: for every state and every write failure of [saveCanvas]
    or [savePlacementData], the failure is logged and the process exits
    with status 1 ([log.Fatalln]); a process that has exited runs no
    later tick, so nothing is retried.  A tick that the process survives
    leaves board and log unchanged. *)
Theorem save_failure_is_fatal
    (Marshal : list ServerPixel.t -> option (list Z))
    (g : Globals) (d : Disk) (e : string) :
  saveCanvas (Some e) g d = Exited 1 (IOFailure e) /\
  savePlacementData Marshal (Some e) g d =
    Exited 1 (match Marshal (placementData g) with
              | Some _ => IOFailure e
              | None => JsonError
              end) /\
  (forall failure2,
     tick Marshal (Some e) failure2 (Running g d) = Exited 1 (IOFailure e)) /\
  tick Marshal None (Some e) (Running g d) =
    Exited 1 (match Marshal (placementData g) with
              | Some _ => IOFailure e
              | None => JsonError
              end) /\
  (forall failure1 failure2 code why,
     tick Marshal failure1 failure2 (Exited code why) = Exited code why) /\
  (forall failure1 failure2,
     match tick Marshal failure1 failure2 (Running g d) with
     | Running g' _ => g' = g
     | Exited code _ => code = 1
     end).
Proof.
  assert (savePlacementData Marshal (Some e) g d =
    Exited 1 (match Marshal (placementData g) with
              | Some _ => IOFailure e
              | None => JsonError
              end)) as Hlog.
  { unfold savePlacementData. by destruct (Marshal _). }
  split; [done |]. split; [done |]. split; [done |].
  split; [| split; [done |]].
  - unfold tick, saveCanvas. cbn. unfold savePlacementData.
    by destruct (Marshal _).
  - intros failure1 failure2.
    destruct (tick Marshal failure1 failure2 (Running g d)) as [g' d' | code why]
      eqn:Htick.
    + by apply tick_running in Htick.
    + revert Htick. unfold tick, saveCanvas, savePlacementData.
      destruct failure1; cbn; [by intros [= <- _] |].
      destruct (Marshal _); [| by intros [= <- _]].
      destruct failure2; cbn; [by intros [= <- _] | discriminate].
Qed.

(** ** The invariants *)

Lemma replay_snoc width height defaultColorIndex log p :
  replay width height defaultColorIndex (log ++ [p]) =
    replay_one width (replay width height defaultColorIndex log) p.
Proof. unfold replay. by rewrite foldl_app. Qed.

Lemma replay_length width height defaultColorIndex log :
  length (replay width height defaultColorIndex log) = Z.to_nat (width * height).
Proof.
  induction log as [| p log IH] using rev_ind.
  - unfold replay, default_grid. apply length_replicate.
  - rewrite replay_snoc. unfold replay_one.
    destruct (_ <? 0); [exact IH |]. by rewrite length_insert.
Qed.

(** C4, as the spec states it, fails where the code's bytes and machine
    integers part from the spec's numbers.  With default colour index
    300 the bootstrap board of a 1x1 canvas is [44], and the replay
    starts from a cell equal to 300.  With width 2^62+1 and height 4,
    Go's [width*height] is 4: the board has four cells, the placement at
    (2^62-3, 3) is in bounds and accepted, and it lands in cell 0, while
    the replay is a grid of 2^64+4 cells. *)
Lemma bootstrap_board_is_not_replay :
  (exists g0,
     start (fun _ => None) 1 1 300
       {| board_dat := NotExist; data_json := NotExist |} = Loaded g0 /\
     board g0 = [44] /\
     replay 1 1 300 (placementData g0) = [300] /\
     board g0 <> replay 1 1 300 (placementData g0))
  /\
  (exists g0 g1,
     start (fun _ => None) 4611686018427387905 4 0
       {| board_dat := NotExist; data_json := NotExist |} = Loaded g0 /\
     0 <= 4611686018427387901 < 4611686018427387905 /\ 0 <= 3 < 4 /\
     postPixel 4611686018427387905 4
       (Some (ClientPixel.mk 4611686018427387901 3 7)) 1000 g0
       = (StatusOnly 200, g1) /\
     board g1 = [7; 0; 0; 0] /\
     board g1 <> replay 4611686018427387905 4 0 (placementData g1)).
Proof.
  split.
  - eexists. repeat split; try (vm_compute; reflexivity).
    vm_compute. discriminate.
  - do 2 eexists. split; [vm_compute; reflexivity |].
    split; [lia |]. split; [lia |].
    split; [vm_compute; reflexivity |].
    split; [reflexivity |].
    intros Heq. apply (f_equal length) in Heq.
    rewrite replay_length in Heq.
    change (length (board _)) with 4%nat in Heq. lia.
Qed.

(** C4, amended: when [width*height] is an [int] and the default colour
    index is in [0, 255], in every state reached from the bootstrap state
    (no file on disk: a board of default cells, an empty log) by accepted
    placements, the board is the log replayed in order on a grid of
    [width*height] cells all equal to the default colour index. *)
Theorem placed_board_is_replay
    (Unmarshal : list Z -> option (list ServerPixel.t))
    (width height defaultColorIndex : Z) (g : Globals) :
  placed Unmarshal width height defaultColorIndex g ->
  0 <= width * height <= GoInt.int_max ->
  0 <= defaultColorIndex <= 255 ->
  board g = replay width height defaultColorIndex (placementData g).
Proof.
  intros Hplaced Hfit Hdefault.
  induction Hplaced as [g Hstart | body now g g' Hplaced IH Hpost].
  - unfold start in Hstart. cbn in Hstart.
    destruct (loadCanvas _ _ _) as [b | |] eqn:Hload; try discriminate.
    injection Hstart as <-. cbn.
    unfold loadCanvas in Hload.
    destruct (Slice.make _) as [b0 |] eqn:Hmake; [| discriminate].
    injection Hload as <-. apply make_Some in Hmake as [_ Hlen].
    rewrite fill_replicate. unfold replay, default_grid. cbn.
    rewrite to_byte_id by done. f_equal.
    unfold Slice.len, GoInt.mul in Hlen.
    rewrite wrap_id in Hlen by (unfold GoInt.int_min; lia). lia.
  - apply postPixel_accepted_inv in Hpost
      as (x & y & c & _ & Hc & Hx & Hy & _ & Hb & Hl).
    destruct (index_exact width height x y (proj2 Hfit) Hx Hy)
      as [Hindex Hrange].
    rewrite Hl, replay_snoc, <- IH. unfold replay_one. cbn.
    replace (y * width + x <? 0) with false by lia.
    by rewrite Hb, Hindex, to_byte_id.
Qed.

(** The amended C4 on a 2x2 canvas of default colour 9 after placements
    at (1,0) and (0,1) and a second one at (1,0). *)
Lemma placed_board_is_replay_witness :
  [9; 5; 3; 9] =
  replay 2 2 9
    [ServerPixel.mk 1 0 7 100; ServerPixel.mk 0 1 3 50; ServerPixel.mk 1 0 5 75].
Proof.
  apply (placed_board_is_replay (fun _ => None) 2 2 9
    {| board := [9; 5; 3; 9];
       placementData :=
         [ServerPixel.mk 1 0 7 100; ServerPixel.mk 0 1 3 50;
          ServerPixel.mk 1 0 5 75] |}).
  - apply (placed_post _ 2 2 9 (Some (ClientPixel.mk 1 0 5)) 75
      {| board := [9; 7; 3; 9];
         placementData := [ServerPixel.mk 1 0 7 100; ServerPixel.mk 0 1 3 50] |});
      [| reflexivity].
    apply (placed_post _ 2 2 9 (Some (ClientPixel.mk 0 1 3)) 50
      {| board := [9; 7; 9; 9];
         placementData := [ServerPixel.mk 1 0 7 100] |});
      [| reflexivity].
    apply (placed_post _ 2 2 9 (Some (ClientPixel.mk 1 0 7)) 100
      {| board := [9; 9; 9; 9]; placementData := [] |});
      [| reflexivity].
    apply placed_bootstrap. reflexivity.
  - unfold GoInt.int_max. lia.
  - lia.
Defined.

Lemma start_board_length Unmarshal width height defaultColorIndex d g :
  start Unmarshal width height defaultColorIndex d = Loaded g ->
  Slice.len (board g) = GoInt.mul width height.
Proof.
  unfold start.
  destruct (loadCanvas _ _ _) as [b | |] eqn:Hload; try discriminate.
  destruct (loadPlacementData _ _) as [l | |]; try discriminate.
  intros [= <-]. cbn. by apply loadCanvas_length in Hload.
Qed.

Lemma reachable_board_length Unmarshal Marshal width height defaultColorIndex g :
  reachable Unmarshal Marshal width height defaultColorIndex g ->
  Slice.len (board g) = GoInt.mul width height.
Proof.
  induction 1 as [d g Hstart | r g Hreach IH
                 | failure1 failure2 g d g' d' Hreach IH Htick].
  - by apply start_board_length in Hstart.
  - by rewrite serve_board_length.
  - apply tick_running in Htick. by subst.
Qed.

(** C9, as the spec states it, fails when [width*height] is no [int]:
    with width and height 2^32, Go's product is 0, start-up returns a
    board of no cell, and the placement at (0,0), in bounds, panics on
    [board[0]]. *)
Lemma board_of_overflowing_size :
  exists g0,
    start (fun _ => None) 4294967296 4294967296 0
      {| board_dat := NotExist; data_json := NotExist |} = Loaded g0 /\
    reachable (fun _ => None) (fun _ => None) 4294967296 4294967296 0 g0 /\
    Slice.len (board g0) = 0 /\
    Slice.len (board g0) <> 4294967296 * 4294967296 /\
    0 <= 0 < 4294967296 /\
    postPixel 4294967296 4294967296 (Some (ClientPixel.mk 0 0 1)) 1000 g0
      = (IndexPanic None 0 0, g0).
Proof.
  eexists. split; [vm_compute; reflexivity |].
  split.
  { apply (reach_start _ _ _ _ _
             {| board_dat := NotExist; data_json := NotExist |}).
    vm_compute. reflexivity. }
  repeat split; try (vm_compute; reflexivity); try lia.
  vm_compute. discriminate.
Qed.

(** C9, amended: in every reachable state the board has exactly
    [width*height] cells, the product being Go's, which is the product
    of the numbers whenever that is an [int].  The length is set by the
    load at start-up, every operation and every tick keeps it, and an
    accepted placement writes one cell, at the index [y*width+x] as Go
    computes it, inside the board; when [width*height] is an [int],
    that index is inside the board for every [0 <= x < width] and
    [0 <= y < height]. *)
Theorem board_length_invariant
    (Unmarshal : list Z -> option (list ServerPixel.t))
    (Marshal : list ServerPixel.t -> option (list Z))
    (width height defaultColorIndex : Z) (g : Globals) :
  reachable Unmarshal Marshal width height defaultColorIndex g ->
  Slice.len (board g) = GoInt.mul width height /\
  (0 <= width * height <= GoInt.int_max ->
   Slice.len (board g) = width * height) /\
  (forall r, Slice.len (board (serve width height r g).2) = Slice.len (board g)) /\
  (forall failure1 failure2 d g' d',
     tick Marshal failure1 failure2 (Running g d) = Running g' d' ->
     board g' = board g) /\
  (forall body now g',
     postPixel width height body now g = (StatusOnly 200, g') ->
     exists x y color,
       body = Some (ClientPixel.mk x y color) /\
       0 <= x < width /\ 0 <= y < height /\
       0 <= GoInt.add (GoInt.mul y width) x < Slice.len (board g) /\
       board g' =
         <[Z.to_nat (GoInt.add (GoInt.mul y width) x) := GoInt.to_byte color]>
           (board g) /\
       forall j : nat, j <> Z.to_nat (GoInt.add (GoInt.mul y width) x) ->
         board g' !! j = board g !! j) /\
  (width * height <= GoInt.int_max ->
   forall x y, 0 <= x < width -> 0 <= y < height ->
     GoInt.add (GoInt.mul y width) x = y * width + x /\
     0 <= y * width + x < Slice.len (board g)).
Proof.
  intros Hreach.
  pose proof (reachable_board_length _ _ _ _ _ _ Hreach) as Hlen.
  assert (0 <= width * height <= GoInt.int_max ->
          Slice.len (board g) = width * height) as Hexact.
  { intros Hfit. rewrite Hlen. unfold GoInt.mul. apply wrap_id.
    unfold GoInt.int_min. lia. }
  split; [done |]. split; [done |].
  split; [intros r; apply serve_board_length |].
  split; [| split].
  - intros failure1 failure2 d g' d' Htick.
    apply tick_running in Htick. by subst.
  - intros body now g' Hpost.
    apply postPixel_accepted_inv in Hpost
      as (x & y & c & -> & _ & Hx & Hy & Hidx & Hb & _).
    exists x, y, c. repeat split; try done; try lia.
    intros j Hj. rewrite Hb. by apply list_lookup_insert_ne.
  - intros Hfit x y Hx Hy.
    destruct (index_exact width height x y Hfit Hx Hy) as [Hindex Hrange].
    split; [done |]. rewrite Hexact; lia.
Qed.

(** The amended C9 on a 2x2 canvas loaded from a file of four bytes, after one
    accepted placement. *)
Lemma board_length_invariant_witness :
  let g := {| board := [1; 2; 6; 4];
              placementData := [ServerPixel.mk 0 1 6 77] |} in
  Slice.len (board g) = GoInt.mul 2 2 /\
  (0 <= 2 * 2 <= GoInt.int_max -> Slice.len (board g) = 2 * 2).
Proof.
  intros g.
  destruct (board_length_invariant (fun _ => Some []) (fun _ => Some []) 2 2 0 g)
    as (Hlen & Hexact & _).
  - apply (reach_serve _ _ 2 2 0 (PlaceReq (Some (ClientPixel.mk 0 1 6)) 77)
             {| board := [1; 2; 3; 4]; placementData := [] |}).
    apply (reach_start _ _ 2 2 0
             {| board_dat := Regular [1; 2; 3; 4]; data_json := Regular [91; 93] |}).
    reflexivity.
  - split; [exact Hlen | exact Hexact].
Defined.

(** ** Beyond the claims: the handlers over time *)

(** [GET /pixel], the whole handler.  It makes the single call
    [c.JSON(200, p)] exactly when both parameters are numbers and [p] is
    the first placement of the log at their coordinate.  With two
    numbers and no placement there, it sets 404 and panics on
    [placementData[-1]].  With a parameter that is missing or no number
    it first sets or writes a 400 and, as no branch returns, still ends
    with the call of the lookup at the values [Atoi] returned.  It never
    changes the board or the log. *)
Theorem getPixelHandler_answers (xQuery yQuery : query_param) (g : Globals) :
  (forall p,
     (getPixelHandler xQuery yQuery g).1 = [Pixel 200 p] <->
     exists x y,
       xQuery = Number x /\ yQuery = Number y /\
       head (filter (fun q => at_coordinate x y q = true) (placementData g))
         = Some p) /\
  (forall x y,
     xQuery = Number x -> yQuery = Number y ->
     (forall p, p ∈ placementData g ->
        ~ (ServerPixel.X p = x /\ ServerPixel.Y p = y)) ->
     (getPixelHandler xQuery yQuery g).1 =
       [IndexPanic (Some 404) (-1) (Slice.len (placementData g))]) /\
  (~ (exists x y, xQuery = Number x /\ yQuery = Number y) ->
   exists first rest,
     (getPixelHandler xQuery yQuery g).1 =
       first :: rest ++
       [(getPixel (Atoi_value xQuery) (Atoi_value yQuery) g).1] /\
     (first = StatusOnly 400 \/ exists message, first = Message 400 message)) /\
  (getPixelHandler xQuery yQuery g).2 = g.
Proof.
  unfold getPixelHandler.
  pose proof (getPixel_unchanged (Atoi_value xQuery) (Atoi_value yQuery) g)
    as Hsame.
  pose proof (getPixel_head (Atoi_value xQuery) (Atoi_value yQuery) g) as Hhead.
  destruct (getPixel (Atoi_value xQuery) (Atoi_value yQuery) g) as [r g']
    eqn:Hget.
  cbn in Hsame. subst g'.
  split; [| split; [| split; [| reflexivity]]].
  - intros p. split.
    + intros Hcalls.
      destruct xQuery as [| vx | x]; destruct yQuery as [| vy | y];
        cbn in Hcalls; try discriminate.
      injection Hcalls as ->. exists x, y. repeat split. cbn in Hhead.
      destruct (head _) as [p0 |]; [| discriminate].
      by injection Hhead as ->.
    + intros (x & y & -> & -> & Hp). cbn in *.
      rewrite Hp in Hhead. by injection Hhead as ->.
  - intros x y -> -> Hnone. cbn in *.
    rewrite filter_at_coordinate_nil in Hhead by exact Hnone.
    cbn in Hhead. by injection Hhead as ->.
  - intros Hbad.
    destruct xQuery as [| vx | x]; destruct yQuery as [| vy | y]; cbn;
      try (first
             [ eexists _, []; split; [reflexivity | eauto]
             | eexists _, [_]; split; [reflexivity | eauto]
             | eexists _, [_; _]; split; [reflexivity | eauto] ]).
    destruct Hbad. by exists x, y.
Qed.

(** What is left of the handler once the coordinates are parsed: 200
    exactly when the log holds a placement at the coordinate, and
    otherwise, and only then, 404 set and the panic. *)
Lemma getPixel_answers_or_panics (x y : Z) (g : Globals) :
  ((exists p, p ∈ placementData g /\
              ServerPixel.X p = x /\ ServerPixel.Y p = y) <->
   exists p, getPixel x y g = (Pixel 200 p, g)) /\
  ((forall p, p ∈ placementData g ->
      ~ (ServerPixel.X p = x /\ ServerPixel.Y p = y)) <->
   getPixel x y g =
     (IndexPanic (Some 404) (-1) (Slice.len (placementData g)), g)).
Proof.
  rewrite getPixel_head.
  destruct (filter _ (placementData g)) as [| p0 rest] eqn:Hfilter; cbn.
  - assert (forall p, p ∈ placementData g ->
              ~ (ServerPixel.X p = x /\ ServerPixel.Y p = y)) as Hnone.
    { intros p Hp Hat. apply at_coordinate_true in Hat.
      by apply (filter_nil_not_elem_of _ _ p Hfilter). }
    split; split; try done.
    + intros (p & Hp & Hat). by destruct (Hnone p Hp).
    + intros [p Hp]. discriminate.
  - assert (p0 ∈ placementData g /\ at_coordinate x y p0 = true) as [Hin Hat].
    { assert (p0 ∈ filter (fun p => at_coordinate x y p = true)
                (placementData g)) as H0
        by (rewrite Hfilter; apply list_elem_of_here).
      apply list_elem_of_filter in H0. tauto. }
    apply at_coordinate_true in Hat.
    split; split; try discriminate.
    + intros _. by exists p0.
    + intros _. by exists p0.
    + intros Hnone. by destruct (Hnone p0 Hin).
Qed.

(** [POST /pixel] answers 200 exactly when the body was bound, the colour
    is in [0, 255], the coordinates are inside the grid and the index
    computed from them is inside the board; a request answered otherwise
    (a 400, or the index panic) changes neither board nor log. *)
Theorem postPixel_accepted_iff (width height : Z)
    (body : option ClientPixel.t) (now : Z) (g : Globals) :
  ((postPixel width height body now g).1 = StatusOnly 200 <->
   exists x y color,
     body = Some (ClientPixel.mk x y color) /\
     0 <= color <= 255 /\ 0 <= x < width /\ 0 <= y < height /\
     0 <= GoInt.add (GoInt.mul y width) x < Slice.len (board g)) /\
  ((postPixel width height body now g).1 <> StatusOnly 200 ->
   (postPixel width height body now g).2 = g).
Proof.
  split; [| apply postPixel_refused_unchanged].
  split.
  - intros Hok.
    destruct (postPixel width height body now g) as [r g'] eqn:Hpost.
    cbn in Hok. subst r.
    apply postPixel_accepted_inv in Hpost
      as (x & y & c & Hbody & Hc & Hx & Hy & Hidx & _).
    by exists x, y, c.
  - intros (x & y & c & -> & Hc & Hx & Hy & Hidx).
    by rewrite postPixel_accepts.
Qed.

Lemma run_exited Marshal width height es code why :
  run Marshal width height es (Exited code why) = Exited code why.
Proof.
  unfold run. induction es as [| e es IH]; [done |].
  cbn. by destruct e.
Qed.

Lemma serve_log_prefix width height r g :
  placementData g `prefix_of` placementData (serve width height r g).2.
Proof.
  destruct r as [| x y | x y | body now]; cbn.
  - done.
  - unfold ReadCell. case_guards. by destruct (cell _ _ _ _).
  - by rewrite getPixel_unchanged.
  - unfold postPixel. destruct body as [cp |]; cbn; [| done].
    case_guards.
    destruct (Slice.set _ _ _); cbn; [| done].
    by apply prefix_app_r.
Qed.

Lemma serve_log_length width height r g :
  (length (placementData (serve width height r g).2)
   <= S (length (placementData g)))%nat.
Proof.
  destruct r as [| x y | x y | body now]; cbn.
  - lia.
  - unfold ReadCell.
    repeat (match goal with
            | |- context [if ?b then _ else _] => destruct b
            end; cbn; [lia |]).
    destruct (cell _ _ _ _); cbn; lia.
  - rewrite getPixel_unchanged. lia.
  - unfold postPixel. destruct body as [cp |]; cbn; [| lia].
    repeat (match goal with
            | |- context [if ?b then _ else _] => destruct b
            end; cbn; [lia |]).
    destruct (Slice.set _ _ _); cbn; [| lia].
    rewrite length_app. cbn. lia.
Qed.

(** Induction along a run that the process survives. *)
Lemma run_invariant (P : list event -> Globals -> Globals -> Prop)
    Marshal width height :
  (forall g, P [] g g) ->
  (forall es g g1 r, P es g g1 ->
     P (es ++ [Served r]) g (serve width height r g1).2) ->
  (forall es g g1 failure1 failure2, P es g g1 ->
     P (es ++ [Ticked failure1 failure2]) g g1) ->
  forall es g d g' d',
    run Marshal width height es (Running g d) = Running g' d' -> P es g g'.
Proof.
  intros Hrefl Hserve Htick es.
  induction es as [| e es IH] using rev_ind; intros g d g' d' Hrun.
  - injection Hrun as <- _. apply Hrefl.
  - unfold run in Hrun. rewrite foldl_app in Hrun. cbn in Hrun.
    fold (run Marshal width height es (Running g d)) in Hrun.
    destruct (run Marshal width height es (Running g d)) as [g1 d1 | code why]
      eqn:Hes; [| by destruct e].
    specialize (IH g d g1 d1 Hes).
    destruct e as [r | failure1 failure2]; cbn in Hrun.
    + injection Hrun as <- _. by apply Hserve.
    + apply tick_running in Hrun. subst. by apply Htick.
Qed.

(** The log is append-only: along any run of requests and ticks that the
    process survives, the log it started with is a prefix of the log it
    ends with, every event adds at most one entry, and the board keeps
    its length. *)
Theorem log_is_append_only
    (Marshal : list ServerPixel.t -> option (list Z)) (width height : Z)
    (es : list event) (g g' : Globals) (d d' : Disk) :
  run Marshal width height es (Running g d) = Running g' d' ->
  placementData g `prefix_of` placementData g' /\
  (length (placementData g') <= length (placementData g) + length es)%nat /\
  Slice.len (board g') = Slice.len (board g).
Proof.
  apply (run_invariant
    (fun es g g' =>
       placementData g `prefix_of` placementData g' /\
       (length (placementData g') <= length (placementData g) + length es)%nat /\
       Slice.len (board g') = Slice.len (board g))).
  - intros g0. repeat split; [done | lia].
  - intros es0 g0 g1 r (Hprefix & Hlen & Hboard). repeat split.
    + etrans; [exact Hprefix | apply serve_log_prefix].
    + pose proof (serve_log_length width height r g1).
      rewrite length_app. cbn. lia.
    + by rewrite serve_board_length.
  - intros es0 g0 g1 failure1 failure2 (Hprefix & Hlen & Hboard).
    repeat split; [done | | done]. rewrite length_app. cbn. lia.
Qed.

(** A run on a 1x1 canvas: a placement, a refused placement, a tick and a
    lookup. *)
Lemma log_is_append_only_witness :
  let g := {| board := [0]; placementData := [ServerPixel.mk 0 0 4 1] |} in
  let g' := {| board := [3];
               placementData := [ServerPixel.mk 0 0 4 1; ServerPixel.mk 0 0 3 5] |} in
  placementData g `prefix_of` placementData g' /\
  (length (placementData g') <= length (placementData g) + 4)%nat /\
  Slice.len (board g') = Slice.len (board g).
Proof.
  intros g g'.
  apply (log_is_append_only (fun _ => Some [91; 93]) 1 1
    [Served (PlaceReq (Some (ClientPixel.mk 0 0 3)) 5);
     Served (PlaceReq (Some (ClientPixel.mk 1 0 3)) 6);
     Ticked None None;
     Served (FindLatestReq 0 0)]
    g g' {| board_dat := NotExist; data_json := NotExist |}
    {| board_dat := Regular [3]; data_json := Regular [91; 93] |}).
  reflexivity.
Defined.

(** The answer of [GET /pixel] never changes: once it has answered with a
    placement for a coordinate, it answers with the same placement after
    any run of requests and ticks, whatever is placed there later. *)
Theorem getPixel_answer_is_stable
    (Marshal : list ServerPixel.t -> option (list Z)) (width height : Z)
    (es : list event) (x y : Z) (p : ServerPixel.t) (g g' : Globals)
    (d d' : Disk) :
  getPixel x y g = (Pixel 200 p, g) ->
  run Marshal width height es (Running g d) = Running g' d' ->
  getPixel x y g' = (Pixel 200 p, g').
Proof.
  intros Hget Hrun.
  assert (placementData g `prefix_of` placementData g') as [k Hk].
  { revert Hrun. apply (run_invariant
      (fun _ g g' => placementData g `prefix_of` placementData g')).
    - done.
    - intros es0 g0 g1 r Hprefix.
      etrans; [exact Hprefix | apply serve_log_prefix].
    - done. }
  rewrite getPixel_head in Hget. rewrite getPixel_head, Hk, filter_app.
  destruct (filter _ (placementData g)) as [| p0 rest]; cbn in *.
  - discriminate.
  - injection Hget as ->. done.
Qed.

(** The first placement at (0,0) keeps being the answer after a second
    one there. *)
Lemma getPixel_answer_is_stable_witness :
  let g' := {| board := [3];
               placementData := [ServerPixel.mk 0 0 4 1; ServerPixel.mk 0 0 3 5] |} in
  getPixel 0 0 g' = (Pixel 200 (ServerPixel.mk 0 0 4 1), g').
Proof.
  intros g'.
  apply (getPixel_answer_is_stable (fun _ => Some [91; 93]) 1 1
    [Served (PlaceReq (Some (ClientPixel.mk 0 0 3)) 5); Ticked None None]
    0 0 (ServerPixel.mk 0 0 4 1)
    {| board := [0]; placementData := [ServerPixel.mk 0 0 4 1] |} g'
    {| board_dat := NotExist; data_json := NotExist |}
    {| board_dat := Regular [3]; data_json := Regular [91; 93] |});
    reflexivity.
Defined.

(** ** Beyond the claims: the board against the log *)

Lemma placed_board_length Unmarshal width height defaultColorIndex g :
  placed Unmarshal width height defaultColorIndex g ->
  Slice.len (board g) = GoInt.mul width height.
Proof.
  induction 1 as [g Hstart | body now g g' Hplaced IH Hpost].
  - by apply start_board_length in Hstart.
  - apply postPixel_accepted_inv in Hpost
      as (x & y & c & _ & _ & _ & _ & _ & Hb & _).
    unfold Slice.len in *. by rewrite Hb, length_insert.
Qed.

(** Two cells of the grid with the same index are the same cell. *)
Lemma index_injective width x y x' y' :
  0 <= x < width -> 0 <= x' < width ->
  y * width + x = y' * width + x' -> x = x' /\ y = y'.
Proof.
  intros Hx Hx' Heq.
  assert (y = y') as -> by nia. lia.
Qed.

(** On the board the last write wins: in a state reached from the
    bootstrap by accepted placements, with [width*height] an [int], the
    cell of an in-bounds [(x, y)] holds the colour of the latest
    placement of the log at [(x, y)], and the default colour when the log
    has none there. *)
Theorem board_holds_latest_colour
    (Unmarshal : list Z -> option (list ServerPixel.t))
    (width height defaultColorIndex x y : Z) (g : Globals) :
  placed Unmarshal width height defaultColorIndex g ->
  width * height <= GoInt.int_max ->
  0 <= x < width -> 0 <= y < height ->
  cell width g x y =
    Some (match FindLatest_spec x y (placementData g) with
          | Some p => ServerPixel.Color p
          | None => GoInt.to_byte defaultColorIndex
          end).
Proof.
  intros Hplaced Hfit Hx Hy.
  destruct (index_exact width height x y Hfit Hx Hy) as [Hindex Hrange].
  unfold cell, FindLatest_spec. rewrite Hindex.
  induction Hplaced as [g Hstart | body now g g' Hplaced IH Hpost].
  - pose proof (start_board_length _ _ _ _ _ _ Hstart) as Hlen.
    unfold GoInt.mul in Hlen.
    rewrite wrap_id in Hlen by (unfold GoInt.int_min; nia).
    unfold start in Hstart. cbn in Hstart.
    destruct (loadCanvas _ _ _) as [b | |] eqn:Hload; try discriminate.
    injection Hstart as <-. cbn in *.
    unfold loadCanvas in Hload.
    destruct (Slice.make _) as [b0 |]; [| discriminate].
    injection Hload as <-. rewrite fill_replicate in *.
    apply slice_get_Some. split; [lia |].
    apply lookup_replicate_2. unfold Slice.len in Hlen.
    rewrite length_replicate in Hlen. lia.
  - pose proof (placed_board_length _ _ _ _ _ Hplaced) as Hlen.
    unfold GoInt.mul in Hlen.
    rewrite wrap_id in Hlen by (unfold GoInt.int_min; nia).
    apply postPixel_accepted_inv in Hpost
      as (x' & y' & c & _ & Hc & Hx' & Hy' & _ & Hb & Hl).
    destruct (index_exact width height x' y' Hfit Hx' Hy') as [Hindex' Hrange'].
    rewrite Hindex', to_byte_id in Hb by done.
    apply slice_get_Some in IH as [_ IH].
    apply slice_get_Some. unfold Slice.len in *.
    rewrite Hb, length_insert, Hl, filter_app. split; [lia |].
    destruct (decide (x' = x /\ y' = y)) as [[-> ->] | Hother].
    + rewrite filter_cons_True by (by apply at_coordinate_true).
      rewrite filter_nil, last_snoc. cbn. apply list_lookup_insert_eq. lia.
    + rewrite filter_cons_False, filter_nil, app_nil_r
        by (rewrite at_coordinate_true; cbn; tauto).
      rewrite list_lookup_insert_ne; [done |].
      intros Heq. apply Hother.
      apply (index_injective width x' y' x y); [done | done | lia].
Qed.

(** A 2x2 canvas of default colour 9: (1,0) was written twice and holds
    the later colour. *)
Lemma board_holds_latest_colour_witness :
  cell 2
    {| board := [9; 5; 3; 9];
       placementData :=
         [ServerPixel.mk 1 0 7 100; ServerPixel.mk 0 1 3 50;
          ServerPixel.mk 1 0 5 75] |} 1 0 = Some 5.
Proof.
  apply (board_holds_latest_colour (fun _ => None) 2 2 9 1 0
    {| board := [9; 5; 3; 9];
       placementData :=
         [ServerPixel.mk 1 0 7 100; ServerPixel.mk 0 1 3 50;
          ServerPixel.mk 1 0 5 75] |}).
  - apply (placed_post _ 2 2 9 (Some (ClientPixel.mk 1 0 5)) 75
      {| board := [9; 7; 3; 9];
         placementData := [ServerPixel.mk 1 0 7 100; ServerPixel.mk 0 1 3 50] |});
      [| reflexivity].
    apply (placed_post _ 2 2 9 (Some (ClientPixel.mk 0 1 3)) 50
      {| board := [9; 7; 9; 9];
         placementData := [ServerPixel.mk 1 0 7 100] |});
      [| reflexivity].
    apply (placed_post _ 2 2 9 (Some (ClientPixel.mk 1 0 7)) 100
      {| board := [9; 9; 9; 9]; placementData := [] |});
      [| reflexivity].
    apply placed_bootstrap. reflexivity.
  - unfold GoInt.int_max. lia.
  - lia.
  - lia.
Defined.

(** ** Beyond the claims: persistence *)

Lemma loadPlacementData_Regular Unmarshal content :
  Slice.len content <= max_rw ->
  loadPlacementData Unmarshal (Regular content) =
    match Unmarshal content with
    | Some pixels => Loaded pixels
    | None => Fatal JsonError
    end.
Proof.
  intros Hsmall. unfold loadPlacementData.
  assert (max_rw <= Slice.max_alloc) as Hlimits
    by (unfold max_rw, Slice.max_alloc; by apply Z.pow_le_mono_r).
  rewrite make_nonneg by (unfold Slice.len in *; lia).
  rewrite read_into_full; [reflexivity | | exact Hsmall].
  rewrite length_replicate. unfold Slice.len. lia.
Qed.

(** Save, then start again: when the board has the [width*height] cells
    of the configuration, the log survives the JSON round trip, and the
    board and the encoded log have at most 2^30 bytes each (what the one
    [Read] of each loader delivers), a tick whose two writes go through
    leaves files from which the next start-up loads the very same board
    and log, whatever was on disk before and whatever the default
    colour. *)
Theorem save_then_start_restores
    (Unmarshal : list Z -> option (list ServerPixel.t))
    (Marshal : list ServerPixel.t -> option (list Z))
    (width height defaultColorIndex : Z) (g : Globals) (d : Disk)
    (placementBytes : list Z) :
  Slice.len (board g) = GoInt.mul width height ->
  Slice.len (board g) <= max_rw ->
  Marshal (placementData g) = Some placementBytes ->
  Slice.len placementBytes <= max_rw ->
  Unmarshal placementBytes = Some (placementData g) ->
  exists d',
    tick Marshal None None (Running g d) = Running g d' /\
    start Unmarshal width height defaultColorIndex d' = Loaded g.
Proof.
  intros Hlen Hboard Hmarshal Hbytes Hunmarshal.
  assert (max_rw <= Slice.max_alloc) as Hlimits
    by (unfold max_rw, Slice.max_alloc; by apply Z.pow_le_mono_r).
  exists {| board_dat := Regular (board g); data_json := Regular placementBytes |}.
  split.
  - unfold tick, saveCanvas, savePlacementData. cbn. by rewrite Hmarshal.
  - unfold start. cbn [board_dat data_json].
    assert (loadCanvas (Regular (board g)) (GoInt.mul width height)
              defaultColorIndex = Loaded (board g)) as ->.
    { unfold loadCanvas.
      rewrite make_nonneg by (unfold Slice.len in *; lia).
      assert (negb (Slice.len (board g) =? GoInt.mul width height) = false)
        as -> by (by apply negb_false_iff, Z.eqb_eq).
      rewrite read_into_full; [reflexivity | | exact Hboard].
      rewrite length_replicate. unfold Slice.len in Hlen. lia. }
    rewrite loadPlacementData_Regular, Hunmarshal by exact Hbytes.
    by destruct g.
Qed.

(** A 2x1 canvas saved over stale files and loaded back, with a codec
    that stores one log. *)
Lemma save_then_start_restores_witness :
  let g := {| board := [4; 0]; placementData := [ServerPixel.mk 0 0 4 1] |} in
  exists d',
    tick (fun _ => Some [1]) None None
      (Running g {| board_dat := Regular [9]; data_json := NotExist |})
      = Running g d' /\
    start (fun _ => Some [ServerPixel.mk 0 0 4 1]) 2 1 7 d' = Loaded g.
Proof.
  intros g.
  apply (save_then_start_restores (fun _ => Some [ServerPixel.mk 0 0 4 1])
           (fun _ => Some [1]) 2 1 7 g
           {| board_dat := Regular [9]; data_json := NotExist |} [1]).
  - reflexivity.
  - unfold Slice.len, max_rw, g. simpl. lia.
  - reflexivity.
  - unfold Slice.len, max_rw. simpl. lia.
  - reflexivity.
Defined.

(** ** Beyond the claims: the palette *)

(** [paletteRGBA] converts the palette entry by entry, in order, and
    exits at the first entry [strconv.ParseUint] refuses: either every
    entry parses and the result holds one colour per entry, the colour
    of its number, or the process ends on the first entry that does not
    parse. *)
Theorem paletteRGBA_converts_or_exits (palette : list string) :
  match paletteRGBA palette with
  | inr converted =>
    Forall2 (fun entry c =>
               exists values,
                 ParseUint_16_32 entry = Some values /\ c = rgba_of values)
      palette converted
  | inl bad =>
    exists before after,
      palette = before ++ bad :: after /\
      ParseUint_16_32 bad = None /\
      Forall (fun entry => is_Some (ParseUint_16_32 entry)) before
  end.
Proof.
  induction palette as [| entry rest IH]; cbn; [constructor |].
  destruct (ParseUint_16_32 entry) as [values |] eqn:Hparse.
  - destruct (paletteRGBA rest) as [bad | converted].
    + destruct IH as (before & after & -> & Hbad & Hbefore).
      exists (entry :: before), after. repeat split; [done |].
      constructor; [by rewrite Hparse | done].
    + constructor; [by exists values | done].
  - exists [], rest. repeat split; [done | constructor].
Qed.

Lemma land_255 a : Z.land a 255 = a mod 256.
Proof. change 255 with (Z.ones 8). by rewrite Z.land_ones. Qed.

(** The channels of a palette colour are the three low bytes of the
    parsed number, red above green above blue, with full opacity; the
    bits from 2^24 up (a seventh and eighth digit) are dropped. *)
Theorem rgba_of_channels (values : Z) :
  A (rgba_of values) = 255 /\
  0 <= R (rgba_of values) <= 255 /\
  0 <= G (rgba_of values) <= 255 /\
  0 <= B (rgba_of values) <= 255 /\
  R (rgba_of values) * 65536 + G (rgba_of values) * 256 + B (rgba_of values)
    = values mod 2 ^ 24.
Proof.
  unfold rgba_of. cbn. rewrite !land_255, !Z.shiftr_div_pow2 by lia.
  unfold GoInt.to_byte. rewrite !Z.mod_mod by lia.
  change (2 ^ 16) with 65536. change (2 ^ 8) with 256.
  change (2 ^ 24) with 16777216.
  pose proof (Z.mod_pos_bound (values / 65536) 256).
  pose proof (Z.mod_pos_bound (values / 256) 256).
  pose proof (Z.mod_pos_bound values 256).
  repeat split; try lia.
  pose proof (Z.div_mod values 256).
  pose proof (Z.div_mod (values / 256) 256).
  pose proof (Z.div_mod (values / 65536) 256).
  assert (values / 65536 = values / 256 / 256) as Hdiv
    by (rewrite Z.div_div by lia; done).
  rewrite Hdiv in *.
  apply (Z.mod_unique _ _ (values / 256 / 256 / 256)); lia.
Qed.

Lemma digit_value_nonneg c d : digit_value c = Some d -> 0 <= d.
Proof.
  unfold digit_value.
  destruct ((48 <=? _) && (_ <=? 57)) eqn:Hdec.
  - intros [= <-]. apply andb_true_iff in Hdec as [H _]. lia.
  - destruct ((97 <=? _) && (_ <=? 122)) eqn:Hlet; [| discriminate].
    intros [= <-]. apply andb_true_iff in Hlet as [H _]. lia.
Qed.

(** An entry of six hexadecimal digits, the format "RRGGBB", always
    parses, and each channel of its colour is the value of its pair of
    digits. *)
Theorem paletteRGBA_six_digits (c1 c2 c3 c4 c5 c6 : ascii)
    (d1 d2 d3 d4 d5 d6 : Z) :
  digit_value c1 = Some d1 -> d1 < 16 ->
  digit_value c2 = Some d2 -> d2 < 16 ->
  digit_value c3 = Some d3 -> d3 < 16 ->
  digit_value c4 = Some d4 -> d4 < 16 ->
  digit_value c5 = Some d5 -> d5 < 16 ->
  digit_value c6 = Some d6 -> d6 < 16 ->
  paletteRGBA
    [String c1 (String c2 (String c3 (String c4 (String c5 (String c6 EmptyString)))))]
  = inr [mkRGBA (16 * d1 + d2) (16 * d3 + d4) (16 * d5 + d6) 255].
Proof.
  intros H1 L1 H2 L2 H3 L3 H4 L4 H5 L5 H6 L6.
  pose proof (digit_value_nonneg _ _ H1). pose proof (digit_value_nonneg _ _ H2).
  pose proof (digit_value_nonneg _ _ H3). pose proof (digit_value_nonneg _ _ H4).
  pose proof (digit_value_nonneg _ _ H5). pose proof (digit_value_nonneg _ _ H6).
  cbn [paletteRGBA]. unfold ParseUint_16_32. cbn [hex_value].
  rewrite H1, H2, H3, H4, H5, H6.
  replace (d1 <? 16) with true by lia. replace (d2 <? 16) with true by lia.
  replace (d3 <? 16) with true by lia. replace (d4 <? 16) with true by lia.
  replace (d5 <? 16) with true by lia. replace (d6 <? 16) with true by lia.
  set (values := ((((((0 * 16 + d1) * 16 + d2) * 16 + d3) * 16 + d4) * 16 + d5)
                    * 16 + d6)).
  assert (values = (16 * d1 + d2) * 65536 + (16 * d3 + d4) * 256
                   + (16 * d5 + d6)) as Hvalues by (unfold values; lia).
  assert ((values <? 2 ^ 32) = true) as -> by (apply Z.ltb_lt; lia).
  do 2 f_equal. unfold rgba_of. rewrite !land_255, !Z.shiftr_div_pow2 by lia.
  unfold GoInt.to_byte. rewrite !Z.mod_mod by lia.
  change (2 ^ 16) with 65536. change (2 ^ 8) with 256.
  assert (values / 65536 = 16 * d1 + d2) as ->
    by (symmetry; apply (Z.div_unique _ _ _ ((16 * d3 + d4) * 256 + (16 * d5 + d6))); lia).
  assert (values / 256 = (16 * d1 + d2) * 256 + (16 * d3 + d4)) as ->
    by (symmetry; apply (Z.div_unique _ _ _ (16 * d5 + d6)); lia).
  assert (((16 * d1 + d2) * 256 + (16 * d3 + d4)) mod 256 = 16 * d3 + d4) as ->
    by (symmetry; apply (Z.mod_unique _ _ (16 * d1 + d2)); lia).
  assert (values mod 256 = 16 * d5 + d6) as ->
    by (symmetry; apply (Z.mod_unique _ _ ((16 * d1 + d2) * 256 + (16 * d3 + d4))); lia).
  rewrite Z.mod_small by lia. done.
Qed.

(** The orange "ff8000", in lower case and in upper case. *)
Lemma paletteRGBA_six_digits_witness :
  paletteRGBA ["ff8000"%string] = inr [mkRGBA 255 128 0 255] /\
  paletteRGBA ["FF8000"%string] = inr [mkRGBA 255 128 0 255].
Proof.
  split.
  - apply (paletteRGBA_six_digits "f" "f" "8" "0" "0" "0" 15 15 8 0 0 0);
      first [reflexivity | lia].
  - apply (paletteRGBA_six_digits "F" "F" "8" "0" "0" "0" 15 15 8 0 0 0);
      first [reflexivity | lia].
Defined.

(** ** Beyond the claims: [GET /image] *)







Section Drawing.

Variables (width height : Z) (converted : list RGBA) (g : Globals).
Hypothesis Hwidth : 0 <= width.
Hypothesis Hheight : 0 <= height.
Hypothesis Hfit : 4 * width * height <= GoInt.int_max.
Hypothesis Hlen : Slice.len (board g) = width * height.


Hypothesis Hvalid :
  forall b, b ∈ board g -> 0 <= b < Slice.len converted.





End Drawing.









